(** * changuito: the cart proxy (changuito/proxy.py)

    A shallow embedding of [CartProxy] and of the part of the Django ORM
    and of Python's [decimal] and [sum] that its methods call, followed by
    the properties of the cart operations. *)

From Stdlib Require Import ZArith QArith Qpower Lia.
From stdpp Require Import base option list gmap fin_maps.

Local Open Scope Z_scope.

(** ** Python numbers: [int], [decimal.Decimal], [sum] *)

(** A finite [Decimal]: [coefficient * 10 ^ exponent].  The operations are
    those of the [decimal] module on finite values under the default
    context: precision 28, rounding ROUND_HALF_EVEN.  NaN, infinities, the
    sign of zero and the exponent limits of the context (Emax = 999999,
    Etiny = -1000026) are left out: the statements about Decimal results are
    made for exponents inside these limits. *)
Record Decimal := mkDecimal { coefficient : Z; exponent : Z }.

Global Instance Decimal_eq_dec : EqDecision Decimal.
Proof. solve_decision. Defined.

Module Dec.

Definition of_int (n : Z) : Decimal := mkDecimal n 0.

(** [getcontext().prec] and [getcontext().Etiny()] of the default context. *)
Definition prec : Z := 28.
Definition etiny : Z := -1000026.

(** The number of decimal digits of a positive number. *)
Fixpoint digits_fuel (fuel : nat) (n : Z) : Z :=
  match fuel with
  | O => 1
  | S k => if n <? 10 then 1 else 1 + digits_fuel k (n / 10)
  end.

Definition digits (n : Z) : Z := digits_fuel (Z.to_nat (Z.log2 n)) n.

(** [Decimal._fix]: a coefficient of more than [prec] digits is rounded to
    [prec] digits, half to even, and the exponent grows by the number of
    digits dropped. *)
Definition fix_context (d : Decimal) : Decimal :=
  let c := Z.abs (coefficient d) in
  if c <? 10 ^ prec then d
  else
    let k := digits c - prec in
    let q := c / 10 ^ k in
    let r := c mod 10 ^ k in
    let half := 5 * 10 ^ (k - 1) in
    let q' := if (half <? r) || ((r =? half) && Z.odd q) then q + 1 else q in
    if q' =? 10 ^ prec
    then mkDecimal (Z.sgn (coefficient d) * (q' / 10)) (exponent d + k + 1)
    else mkDecimal (Z.sgn (coefficient d) * q') (exponent d + k).

(** The sum before the context rounds it: both operands are rescaled to the
    smaller exponent, which is the exponent of the sum. *)
Definition add_exact (a b : Decimal) : Decimal :=
  let e := Z.min (exponent a) (exponent b) in
  mkDecimal (coefficient a * 10 ^ (exponent a - e)
             + coefficient b * 10 ^ (exponent b - e)) e.

(** [Decimal.__add__] *)
Definition add (a b : Decimal) : Decimal := fix_context (add_exact a b).

(** The product before the context rounds it: coefficients multiply,
    exponents add. *)
Definition mul_exact (a b : Decimal) : Decimal :=
  mkDecimal (coefficient a * coefficient b) (exponent a + exponent b).

(** [Decimal.__mul__] *)
Definition mul (a b : Decimal) : Decimal := fix_context (mul_exact a b).

(** The rational number a [Decimal] stands for. *)
Definition value (d : Decimal) : Q :=
  (inject_Z (coefficient d) * Qpower (10 # 1) (exponent d))%Q.

End Dec.

(** What [sum] and [*] range over here: an [int] or a [Decimal]. *)
Inductive number := Int (n : Z) | Dec (d : Decimal).

Global Instance number_eq_dec : EqDecision number.
Proof. solve_decision. Defined.

Definition to_decimal (x : number) : Decimal :=
  match x with Int n => Dec.of_int n | Dec d => d end.

(** [x + y]: an [int] operand of a [Decimal] is converted first. *)
Definition py_add (x y : number) : number :=
  match x, y with
  | Int a, Int b => Int (a + b)
  | _, _ => Dec (Dec.add (to_decimal x) (to_decimal y))
  end.

Definition py_mul (x y : number) : number :=
  match x, y with
  | Int a, Int b => Int (a * b)
  | _, _ => Dec (Dec.mul (to_decimal x) (to_decimal y))
  end.

(** The builtin [sum(xs)]: a left fold of [+] that starts at the int 0. *)
Definition py_sum (xs : list number) : number := foldl py_add (Int 0) xs.

(** [int(q)] on an [int] argument. *)
Definition py_int (q : Z) : Z := q.

Definition number_value (x : number) : Q :=
  match x with Int n => inject_Z n | Dec d => Dec.value d end.

(** ** Exceptions and the state-and-exception monad *)

Inductive model := CartModel | ItemModel.

Inductive exn :=
| DoesNotExist (m : model)            (* models.<m>.DoesNotExist *)
| MultipleObjectsReturned (m : model) (* models.<m>.MultipleObjectsReturned *)
| ItemAlreadyExists
| ItemDoesNotExist
| CartDoesNotExist
| UserDoesNotExist
| UnboundLocalError
| AttributeError.

Global Instance model_eq_dec : EqDecision model.
Proof. solve_decision. Defined.
Global Instance exn_eq_dec : EqDecision exn.
Proof. solve_decision. Defined.

Inductive result (A : Type) := Ok (a : A) | Raise (e : exn).
Arguments Ok {A} a.
Arguments Raise {A} e.

(** ** The store *)

(** A table with an auto-increment primary key: the rows by key, and the
    last key the sequence has handed out (keys are never reused). *)
Record Table (A : Type) := mkTable { rows : gmap Z A; last_pk : Z }.
Arguments mkTable {A} rows last_pk.
Arguments rows {A} t.
Arguments last_pk {A} t.

Module Tbl.
Section ops.
Context {A : Type}.

Definition empty : Table A := mkTable ∅ 0.

(** INSERT of a row without a key. *)
Definition insert (a : A) (t : Table A) : Z * Table A :=
  let k := last_pk t + 1 in (k, mkTable (<[k := a]> (rows t)) k).

(** [save()] of an object that has a key: UPDATE, or INSERT under that
    key when no row has it. *)
Definition save (k : Z) (a : A) (t : Table A) : Table A :=
  mkTable (<[k := a]> (rows t)) (Z.max k (last_pk t)).

Definition delete (k : Z) (t : Table A) : Table A :=
  mkTable (base.delete k (rows t)) (last_pk t).

(** DELETE ... WHERE P. *)
Definition delete_where (P : Z * A → Prop) `{∀ x, Decision (P x)}
    (t : Table A) : Table A :=
  mkTable (filter (λ kv, ¬ P kv) (rows t)) (last_pk t).

Definition wf (t : Table A) : Prop :=
  ∀ k, is_Some (rows t !! k) → k ≤ last_pk t.
End ops.
End Tbl.

(** models.Cart: the columns, and an instance (the key with the columns). *)
Record CartFields := mkCartFields {
  creation_date : Z;
  user : option Z;          (* the owner's id; None: no owner *)
  checked_out : bool }.

Record Cart := mkCart { cart_id : Z; cart_fields :> CartFields }.

(** The product of an item: content type and object id. *)
Record ProductRef := mkProductRef { content_type : Z; object_id : Z }.

(** models.Item *)
Record ItemFields := mkItemFields {
  item_cart : Z;            (* the key of the owning cart *)
  product : ProductRef;
  unit_price : Decimal;
  quantity : Z }.

Record Item := mkItem { item_id : Z; item_fields :> ItemFields }.

Global Instance CartFields_eq_dec : EqDecision CartFields.
Proof. solve_decision. Defined.
Global Instance Cart_eq_dec : EqDecision Cart.
Proof. solve_decision. Defined.
Global Instance ProductRef_eq_dec : EqDecision ProductRef.
Proof. solve_decision. Defined.
Global Instance ItemFields_eq_dec : EqDecision ItemFields.
Proof. solve_decision. Defined.
Global Instance Item_eq_dec : EqDecision Item.
Proof. solve_decision. Defined.

Definition set_user (c : Cart) (u : option Z) : Cart :=
  mkCart (cart_id c) (mkCartFields (creation_date c) u (checked_out c)).

Definition set_checked_out (c : Cart) (b : bool) : Cart :=
  mkCart (cart_id c) (mkCartFields (creation_date c) (user c) b).

Definition set_quantity (i : Item) (q : Z) : Item :=
  mkItem (item_id i)
         (mkItemFields (item_cart i) (product i) (unit_price i) q).

(** Modelled from the spec: models.py is not part of the sources; a Cart
    is created with isCheckedOut false. *)
Definition default_checked_out : bool := false.

(** Modelled from the spec: models.py is not part of the sources; the
    derived totalPrice of an Item is unitPrice × quantity. *)
Definition total_price (i : Item) : number :=
  py_mul (Int (quantity i)) (Dec (unit_price i)).

(** The database, the session of the client and the clock. *)
Record World := mkWorld {
  carts : Table CartFields;
  items : Table ItemFields;
  session : option Z;       (* request.session.get(CART_ID) *)
  clock : Z }.

Definition with_carts (w : World) (t : Table CartFields) : World :=
  mkWorld t (items w) (session w) (clock w).
Definition with_items (w : World) (t : Table ItemFields) : World :=
  mkWorld (carts w) t (session w) (clock w).
Definition with_session (w : World) (s : option Z) : World :=
  mkWorld (carts w) (items w) s (clock w).

Definition M (A : Type) : Type := World → result A * World.

Definition ret {A} (a : A) : M A := λ w, (Ok a, w).
Definition raise {A} (e : exn) : M A := λ w, (Raise e, w).
Definition bind {A B} (m : M A) (k : A → M B) : M B :=
  λ w, match m w with
       | (Ok a, w') => k a w'
       | (Raise e, w') => (Raise e, w')
       end.

Notation "'let*' x ':=' m 'in' k" := (bind m (λ x, k))
  (at level 10, x name, m at level 100, k at level 200, only parsing).
Notation "'do' m 'in' k" := (bind m (λ _, k))
  (at level 10, m at level 100, k at level 200, only parsing).

(** [try: body / except <handler e is Some>: ... / else: orelse].  What the
    body did to the store before it raised stays done. *)
Definition try_except_else {A B} (body : M A)
    (handler : exn → option (M B)) (orelse : A → M B) : M B :=
  λ w, match body w with
       | (Ok a, w') => orelse a w'
       | (Raise e, w') =>
           match handler e with
           | Some h => h w'
           | None => (Raise e, w')
           end
       end.

Definition try_except {A} (body : M A) (handler : exn → option (M A)) : M A :=
  try_except_else body handler ret.

(** [except E:] *)
Definition except {A} (e0 : exn) (h : M A) : exn → option (M A) :=
  λ e, if decide (e = e0) then Some h else None.

(** ** The ORM calls *)

Definition Cart_all (w : World) : list Cart :=
  (λ kv, mkCart kv.1 kv.2) <$> map_to_list (rows (carts w)).

Definition Item_all (w : World) : list Item :=
  (λ kv, mkItem kv.1 kv.2) <$> map_to_list (rows (items w)).

(** [objects.get(...)] on the rows that match. *)
Definition get_one {A} (m : model) (matching : list A) : result A :=
  match matching with
  | [] => Raise (DoesNotExist m)
  | [x] => Ok x
  | _ => Raise (MultipleObjectsReturned m)
  end.

Definition Cart_objects_get (P : Cart → Prop) `{∀ c, Decision (P c)} : M Cart :=
  λ w, (get_one CartModel (filter P (Cart_all w)), w).

Definition Item_objects_get (P : Item → Prop) `{∀ i, Decision (P i)} : M Item :=
  λ w, (get_one ItemModel (filter P (Item_all w)), w).

(** [Cart(...)] followed by the first [save()]. *)
Definition Cart_create (f : CartFields) : M Cart :=
  λ w, let '(k, t) := Tbl.insert f (carts w) in (Ok (mkCart k f), with_carts w t).

Definition Cart_save (c : Cart) : M unit :=
  λ w, (Ok tt, with_carts w (Tbl.save (cart_id c) (cart_fields c) (carts w))).

(** Modelled from the spec: models.py is not part of the sources; deleting
    a Cart deletes its Items with it (cascade). *)
Definition Cart_delete (c : Cart) : M unit :=
  λ w, (Ok tt,
        mkWorld (Tbl.delete (cart_id c) (carts w))
                (Tbl.delete_where (λ kv, item_cart kv.2 = cart_id c) (items w))
                (session w) (clock w)).

Definition Item_create (f : ItemFields) : M Item :=
  λ w, let '(k, t) := Tbl.insert f (items w) in (Ok (mkItem k f), with_items w t).

Definition Item_save (i : Item) : M unit :=
  λ w, (Ok tt, with_items w (Tbl.save (item_id i) (item_fields i) (items w))).

Definition Item_delete (i : Item) : M unit :=
  λ w, (Ok tt, with_items w (Tbl.delete (item_id i) (items w))).

(** [cart.item_set.all()] *)
Definition item_set (c : Cart) (w : World) : list Item :=
  filter (λ i : Item, item_cart i = cart_id c) (Item_all w).

(** [cart.item_set.filter(id=item_id).delete()] *)
Definition item_set_filter_id_delete (c : Cart) (id : Z) : M unit :=
  λ w, (Ok tt,
        with_items w
          (Tbl.delete_where (λ kv, item_cart kv.2 = cart_id c ∧ kv.1 = id)
                            (items w))).

Definition timezone_now : M Z := λ w, (Ok (clock w), w).

(** ** The request *)

(** [request.user]: the id of the authenticated user, None for the
    AnonymousUser.  The session of the request is the one of the world. *)
Record Request := mkRequest { req_user : option Z }.

Definition is_anonymous (u : option Z) : bool :=
  match u with None => true | Some _ => false end.

(** [request.session.get(CART_ID)] *)
Definition session_get : M (option Z) := λ w, (Ok (session w), w).

(** [request.session[CART_ID] = id]; on the request None the attribute
    access fails. *)
Definition session_set (request : option Request) (id : Z) : M unit :=
  match request with
  | None => raise AttributeError
  | Some _ => λ w, (Ok tt, with_session w (Some id))
  end.

(** [for x in xs: body(x)] *)
Definition for_each {A} (xs : list A) (body : A → M unit) : M unit :=
  foldr (λ x k, do body x in k) (ret tt) xs.

(** A local name of a Python function: not yet assigned, or bound. *)
Inductive local (A : Type) := Unbound | Bound (a : A).
Arguments Unbound {A}.
Arguments Bound {A} a.

(** ** class CartProxy *)

Module CartProxy.

(** The attributes [self.request] and [self.cart]. *)
Record t := mk { request : option Request; cart : Cart }.

(** [new(self, request, user=None)] *)
Definition new (request : option Request) (usr : option Z) : M Cart :=
  let* today := timezone_now in
  let* c := Cart_create (mkCartFields today usr default_checked_out) in
  do session_set request (cart_id c) in
  ret c.

(** The [try] block of [__init__]: its outcome, with the local [user] as
    the block leaves it. *)
Definition init_try (request : option Request)
    : World → local (option Z) * result Cart * World :=
  λ w,
    match request with
    | None =>
        (* [user] was never assigned: reading it raises *)
        (Unbound, Raise UnboundLocalError, w)
    | Some r =>
        let usr := req_user r in
        if negb (is_anonymous usr) then
          let '(res, w') :=
            Cart_objects_get
              (λ c : Cart, user c = usr ∧ checked_out c = false) w in
          (Bound usr, res, w')
        else
          let usr := None in
          let '(res, w') :=
            (let* cid := session_get in
             Cart_objects_get
               (λ c : Cart, Some (cart_id c) = cid ∧ checked_out c = false)) w in
          (Bound usr, res, w')
    end.

(** The bare [except:] block of [__init__]. *)
Definition init_except (request : option Request)
    (usr : local (option Z)) (supplied : option Cart) : M Cart :=
  match supplied with
  | None =>
      match usr with
      | Unbound => raise UnboundLocalError
      | Bound u => new request u
      end
  | Some c0 => Cart_objects_get (λ c : Cart, cart_id c = cart_id c0)
  end.

(** [__init__(self, request, cart=None)] *)
Definition init (request : option Request) (supplied : option Cart) : M t :=
  λ w,
    let '(usr, res, w') := init_try request w in
    match res with
    | Ok found => (Ok (mk request found), w')
    | Raise _ =>
        (let* c := init_except request usr supplied in ret (mk request c)) w'
    end.

(** [add(self, product, unit_price, quantity=1)] *)
Definition add (self : t) (p : ProductRef) (price : Decimal) (q : Z) : M Item :=
  try_except_else
    (let ctype := content_type p in
     Item_objects_get
       (λ i : Item, item_cart i = cart_id (cart self) ∧ product i = p
                    ∧ content_type (product i) = ctype))
    (except (DoesNotExist ItemModel)
       (Item_create (mkItemFields (cart_id (cart self)) p price q)))
    (λ item,
       let item := set_quantity item (quantity item + py_int q) in
       do Item_save item in ret item).

(** [remove_item(self, item_id)] *)
Definition remove_item (self : t) (id : Z) : M unit :=
  try_except
    (item_set_filter_id_delete (cart self) id)
    (except (DoesNotExist ItemModel) (raise ItemDoesNotExist)).

(** [update_item(self, item_pk, new_quantity)] *)
Definition update_item (self : t) (item_pk : Z) (new_quantity : Z) : M unit :=
  try_except
    (let* item := Item_objects_get (λ i : Item, item_id i = item_pk) in
     Item_save (set_quantity item new_quantity))
    (except (DoesNotExist ItemModel) (raise ItemDoesNotExist)).

(** [update(self, product, quantity, unit_price=None)] *)
Definition update (self : t) (p : ProductRef) (q : Z)
    (price : option Decimal) : M unit :=
  try_except
    (let* item := Item_objects_get
               (λ i : Item, item_cart i = cart_id (cart self) ∧ product i = p) in
     Item_save (set_quantity item q))
    (except (DoesNotExist ItemModel) (raise ItemDoesNotExist)).

(** [delete_old_cart(self, user)] *)
Definition delete_old_cart (self : t) (usr : option Z) : M unit :=
  try_except
    (let* c := Cart_objects_get (λ c : Cart, user c = usr) in
     Cart_delete c)
    (except (DoesNotExist CartModel) (ret tt)).

(** [replace(self, cart_id, new_user)] *)
Definition replace (self : t) (cid : Z) (new_user : option Z) : M Cart :=
  try_except
    (do delete_old_cart self new_user in
     let* c := Cart_objects_get (λ c : Cart, cart_id c = cid) in
     let c := set_user c new_user in
     do Cart_save c in
     ret c)
    (except (DoesNotExist CartModel) (raise CartDoesNotExist)).

(** [clear(self)] *)
Definition clear (self : t) : M unit :=
  λ w, for_each (item_set (cart self) w) Item_delete w.

(** [total(self)] *)
Definition total (self : t) (w : World) : number :=
  py_sum (total_price <$> item_set (cart self) w).

(** [count(self)] *)
Definition count (self : t) (w : World) : number :=
  py_sum ((λ i : Item, Int (quantity i)) <$> item_set (cart self) w).

(** [unique_count(self)] *)
Definition unique_count (self : t) (w : World) : nat :=
  length (item_set (cart self) w).

(** [get_last_cart(self, user)]: the cart returned, and [self] with what
    the call assigned to [self.cart]. *)
Definition get_last_cart (self : t) (usr : option Z) : M (Cart * t) :=
  try_except_else
    (Cart_objects_get (λ c : Cart, user c = usr ∧ checked_out c = false))
    (except (DoesNotExist CartModel)
       (let c := set_user (cart self) usr in
        do Cart_save c in
        ret (c, mk (request self) c)))
    (λ c, ret (c, self)).

(** [checkout(self)]: the cart returned (it is [self.cart]), and [self]. *)
Definition checkout (self : t) : M (Cart * t) :=
  let c := set_checked_out (cart self) true in
  do try_except (Cart_save c) (except (DoesNotExist CartModel) (ret tt)) in
  ret (c, mk (request self) c).

(** The truth value of [cart_id] in [if cart_id:]: None and 0 are false. *)
Definition truthy (cid : option Z) : bool :=
  match cid with
  | None => false
  | Some k => negb (k =? 0)
  end.

(** [get_cart(cls, request)] *)
Definition get_cart (request : option Request) : M (option Cart) :=
  match request with
  | None => raise AttributeError
  | Some _ =>
      let* cid := session_get in
      if truthy cid then
        let* c := Cart_objects_get
                    (λ c : Cart, Some (cart_id c) = cid ∧ checked_out c = false) in
        ret (Some c)
      else ret None
  end.

(** [get_item(self, item)] *)
Definition get_item (self : t) (item : Z) : M Item :=
  try_except
    (Item_objects_get (λ i : Item, item_id i = item))
    (except (DoesNotExist ItemModel) (raise ItemDoesNotExist)).

(** [shipping_total(self)]: the shipping function and the weight-cost
    function are the ones the settings name. *)
Definition shipping_total {W : Type} (ship_f : list Item → W → number)
    (weight_cost : W) (self : t) (w : World) : number :=
  ship_f (item_set (cart self) w) weight_cost.

(** [total_inclusive(self)] *)
Definition total_inclusive {W : Type} (ship_f : list Item → W → number)
    (weight_cost : W) (self : t) (w : World) : number :=
  py_add (total self w) (shipping_total ship_f weight_cost self w).

End CartProxy.

(** ** Definitions for the statements, and concrete worlds *)

Definition price_3_50 : Decimal := mkDecimal 350 (-2).
Definition price_1_25 : Decimal := mkDecimal 125 (-2).
Definition price_10_00 : Decimal := mkDecimal 1000 (-2).
Definition product_A : ProductRef := mkProductRef 1 7.
Definition product_B : ProductRef := mkProductRef 1 8.

Definition anonymous_request : option Request := Some (mkRequest None).

(** Cart 1 (open, no owner) holds items 1 and 2; cart 2 (open, owned by
    user 5) holds item 3. *)
Definition world_two_carts : World :=
  mkWorld
    (mkTable (list_to_map [(1, mkCartFields 100 None false);
                           (2, mkCartFields 101 (Some 5) false)]) 2)
    (mkTable (list_to_map [(1, mkItemFields 1 product_A price_3_50 2);
                           (2, mkItemFields 1 product_B price_1_25 4);
                           (3, mkItemFields 2 product_A price_10_00 1)]) 3)
    (Some 1) 102.

Definition proxy_cart_1 : CartProxy.t :=
  CartProxy.mk anonymous_request (mkCart 1 (mkCartFields 100 None false)).

(** The items of a cart for a product: the rows [update] looks up. *)
Definition items_for (cid : Z) (p : ProductRef) (w : World) : list Item :=
  filter (λ i : Item, item_cart i = cid ∧ product i = p) (Item_all w).

(** The carts [delete_old_cart] looks up: every cart of the user, open or
    checked out. *)
Definition carts_of (usr : option Z) (w : World) : list Cart :=
  filter (λ c : Cart, user c = usr) (Cart_all w).

(** User 5 has checked out cart 1 and has since filled the open cart 2; the
    anonymous cart 3 is the one of the session. *)
Definition world_returning_customer : World :=
  mkWorld
    (mkTable (list_to_map [(1, mkCartFields 100 (Some 5) true);
                           (2, mkCartFields 101 (Some 5) false);
                           (3, mkCartFields 102 None false)]) 3)
    (mkTable (list_to_map [(1, mkItemFields 1 product_A price_3_50 2);
                           (2, mkItemFields 2 product_B price_1_25 4);
                           (3, mkItemFields 3 product_A price_10_00 1)]) 3)
    (Some 3) 103.

(** User 5 owns the checked-out cart 1 and no open cart. *)
Definition world_checked_out_only : World :=
  mkWorld
    (mkTable (list_to_map [(1, mkCartFields 100 (Some 5) true);
                           (3, mkCartFields 102 None false)]) 3)
    (mkTable (list_to_map [(1, mkItemFields 1 product_A price_3_50 2);
                           (3, mkItemFields 3 product_A price_10_00 1)]) 3)
    (Some 3) 103.

Definition proxy_cart_3 : CartProxy.t :=
  CartProxy.mk anonymous_request (mkCart 3 (mkCartFields 102 None false)).

Definition proxy_cart_2 : CartProxy.t :=
  CartProxy.mk (Some (mkRequest (Some 5)))
               (mkCart 2 (mkCartFields 101 (Some 5) false)).

(** The sum of a list of rationals. *)
Definition Qsum (xs : list Q) : Q := foldr Qplus 0%Q xs.

(** The total of a cart in the words of the specification: the sum, over
    the rows of the item table that belong to the cart, of unit price times
    quantity, as a rational number. *)
Definition add_row_total (cid : Z) (_ : Z) (f : ItemFields) (acc : Q) : Q :=
  if decide (item_cart f = cid)
  then (Dec.value (unit_price f) * inject_Z (quantity f) + acc)%Q
  else acc.

Definition exact_total (cid : Z) (w : World) : Q :=
  map_fold (add_row_total cid) 0%Q (rows (items w)).

(** The number of units in a cart in the words of the specification: the
    sum of the quantities of the rows of the item table that belong to the
    cart. *)
Definition add_row_quantity (cid : Z) (_ : Z) (f : ItemFields) (acc : Z) : Z :=
  if decide (item_cart f = cid) then quantity f + acc else acc.

Definition quantity_total (cid : Z) (w : World) : Z :=
  map_fold (add_row_quantity cid) 0 (rows (items w)).

(** The number of item records of a cart: the size of the part of the item
    table that belongs to the cart. *)
Definition record_count (cid : Z) (w : World) : nat :=
  size (filter (λ kv : Z * ItemFields, item_cart kv.2 = cid) (rows (items w))).

(** A world with an anonymous cart that has no items yet. *)
Definition world_empty_cart : World :=
  mkWorld (mkTable (list_to_map [(1, mkCartFields 100 None false)]) 1)
          Tbl.empty (Some 1) 101.


(** A cart object whose row is gone from the store of [world_two_carts]. *)
Definition stale_cart : Cart := mkCart 9 (mkCartFields 90 None false).

(** The calls a client can make, one after the other: constructing a proxy
    for a request (the proxy of the requests that follow), and the methods
    of the current proxy that write to the store. *)
Inductive Op :=
| OpInit (request : option Request) (supplied : option Cart)
| OpNew (request : option Request) (usr : option Z)
| OpAdd (p : ProductRef) (price : Decimal) (q : Z)
| OpRemoveItem (id : Z)
| OpUpdateItem (item_pk q : Z)
| OpUpdate (p : ProductRef) (q : Z) (price : option Decimal)
| OpDeleteOldCart (usr : option Z)
| OpReplace (cid : Z) (new_user : option Z)
| OpClear
| OpGetLastCart (usr : option Z)
| OpCheckout.

Record Sys := mkSys { world : World; proxy : option CartProxy.t }.

(** A call whose result is dropped; what it did to the store before
    raising stays. *)
Definition call {A} (m : M A) (s : Sys) : Sys := mkSys (m (world s)).2 (proxy s).

(** A call that yields the proxy, constructed or with [self.cart]
    reassigned; when it raises the proxy is the one before. *)
Definition call_self {A} (m : M (A * CartProxy.t)) (s : Sys) : Sys :=
  match m (world s) with
  | (Ok (_, p), w') => mkSys w' (Some p)
  | (Raise _, w') => mkSys w' (proxy s)
  end.

Definition step (op : Op) (s : Sys) : Sys :=
  match op, proxy s with
  | OpInit request supplied, _ =>
      call_self (let* p := CartProxy.init request supplied in ret (tt, p)) s
  | _, None => s
  | OpNew request usr, Some _ => call (CartProxy.new request usr) s
  | OpAdd p price q, Some self => call (CartProxy.add self p price q) s
  | OpRemoveItem id, Some self => call (CartProxy.remove_item self id) s
  | OpUpdateItem pk q, Some self => call (CartProxy.update_item self pk q) s
  | OpUpdate p q price, Some self => call (CartProxy.update self p q price) s
  | OpDeleteOldCart usr, Some self => call (CartProxy.delete_old_cart self usr) s
  | OpReplace cid usr, Some self => call (CartProxy.replace self cid usr) s
  | OpClear, Some self => call (CartProxy.clear self) s
  | OpGetLastCart usr, Some self => call_self (CartProxy.get_last_cart self usr) s
  | OpCheckout, Some self => call_self (CartProxy.checkout self) s
  end.

Definition run (ops : list Op) (s : Sys) : Sys := foldl (λ s op, step op s) s ops.




(** ** Definitions for the further properties *)

(** The carts the lookup of [__init__] matches for a request: the open
    carts of the user, or the open cart the session names. *)
Definition open_carts_for (r : Request) (w : World) : list Cart :=
  if negb (is_anonymous (req_user r))
  then filter (λ c : Cart, user c = req_user r ∧ checked_out c = false)
              (Cart_all w)
  else filter (λ c : Cart, Some (cart_id c) = session w ∧ checked_out c = false)
              (Cart_all w).

(** The open carts of a user: the rows [get_last_cart] looks up. *)
Definition open_carts_of (usr : option Z) (w : World) : list Cart :=
  filter (λ c : Cart, user c = usr ∧ checked_out c = false) (Cart_all w).

(** No cart holds two items for one product. *)
Definition one_item_per_product (w : World) : Prop :=
  ∀ cid p, (length (items_for cid p w) ≤ 1)%nat.

(** The same, on the rows of the item table. *)
Definition rows_unique (m : gmap Z ItemFields) : Prop :=
  ∀ k1 k2 f1 f2,
    m !! k1 = Some f1 → m !! k2 = Some f2 →
    item_cart f1 = item_cart f2 → product f1 = product f2 → k1 = k2.

(** What an operation can do to the item table. *)
Inductive items_step : Table ItemFields → Table ItemFields → Prop :=
| is_insert t f :
    (∀ k f0, rows t !! k = Some f0 →
             ¬ (item_cart f0 = item_cart f ∧ product f0 = product f)) →
    items_step t (Tbl.insert f t).2
| is_set_quantity t k f q :
    rows t !! k = Some f →
    items_step t (Tbl.save k (mkItemFields (item_cart f) (product f)
                                           (unit_price f) q) t)
| is_remove t t' :
    rows t' ⊆ rows t → last_pk t' = last_pk t →
    items_step t t'.


(** The operations on items, and the operations on the proxy's cart that do
    not delete anything. *)
Definition item_op (op : Op) : bool :=
  match op with
  | OpAdd _ _ _ | OpRemoveItem _ | OpUpdateItem _ _ | OpUpdate _ _ _
  | OpClear => true
  | _ => false
  end.

Definition cart_op (op : Op) : bool :=
  match op with
  | OpInit _ _ | OpNew _ _ | OpGetLastCart _ | OpCheckout => true
  | _ => false
  end.

(** ** Amounts within the precision of the decimal context *)

(** The size of a Decimal in units of [10 ^ emin]. *)
Definition magnitude (emin : Z) (d : Decimal) : Z :=
  Z.abs (coefficient d) * 10 ^ (exponent d - emin).

(** The size of the total price of an item in units of [10 ^ emin]. *)
Definition item_magnitude (emin : Z) (i : Item) : Z :=
  Z.abs (quantity i * coefficient (unit_price i))
  * 10 ^ (exponent (unit_price i) - emin).

(** The total prices of the items, added up in absolute value, have at most
    28 digits in units of [10 ^ emin]; no unit price has an exponent below
    [emin], and [emin] is an exponent of the context, at most 0 (the
    exponent of the int 0 that [sum] starts from). *)
Definition within_precision (emin : Z) (its : list Item) : Prop :=
  Dec.etiny ≤ emin ≤ 0
  ∧ Forall (λ i : Item, emin ≤ exponent (unit_price i)) its
  ∧ foldr Z.add 0 (item_magnitude emin <$> its) < 10 ^ Dec.prec.

(** Cart 1 holds eleven items of 2147483647 units at 9999999999999999.99. *)
Definition world_eleven_items : World :=
  mkWorld
    (mkTable (list_to_map [(1, mkCartFields 100 None false)]) 1)
    (mkTable
       (list_to_map
          ((λ k, (k, mkItemFields 1 (mkProductRef 1 k)
                       (mkDecimal 999999999999999999 (-2)) 2147483647))
             <$> seqZ 1 11)) 11)
    (Some 1) 101.

(** * Properties *)

(** ** Lists of matching rows *)

Section matching.
Context {A : Type} (P : A → Prop) `{∀ x, Decision (P x)}.

Lemma filter_none (l : list A) :
  (∀ y, y ∈ l → ¬ P y) → filter P l = [].
Proof.
  induction l as [|a l IH]; intros Hl; [done|].
  rewrite filter_cons_False; [|apply Hl; left].
  apply IH. intros y Hy. apply Hl. by right.
Qed.

Lemma filter_unique (l : list A) (x : A) :
  NoDup l → x ∈ l → P x → (∀ y, y ∈ l → P y → y = x) →
  filter P l = [x].
Proof.
  intros Hnd Hx HPx Huniq.
  apply Permutation_singleton_r, NoDup_Permutation.
  - by apply NoDup_filter.
  - apply NoDup_singleton.
  - intros y. rewrite list_elem_of_filter, list_elem_of_singleton.
    split; [intros [? ?]; by apply Huniq | by intros ->].
Qed.

Lemma filter_singleton_inv (l : list A) (x : A) :
  filter P l = [x] → x ∈ l ∧ P x ∧ ∀ y, y ∈ l → P y → y = x.
Proof.
  intros Hf.
  assert (Hin : ∀ y, y ∈ filter P l ↔ y = x).
  { intros y. rewrite Hf. apply list_elem_of_singleton. }
  split_and!.
  - by apply (proj1 (list_elem_of_filter P l x)), Hin.
  - by apply (proj1 (list_elem_of_filter P l x)), Hin.
  - intros y Hy HPy. apply Hin, list_elem_of_filter. done.
Qed.
End matching.

(** ** The objects of a table *)

Lemma elem_of_Item_all (w : World) (i : Item) :
  i ∈ Item_all w ↔ rows (items w) !! item_id i = Some (item_fields i).
Proof.
  unfold Item_all. rewrite list_elem_of_fmap. split.
  - intros ([k f] & -> & Hin). by apply elem_of_map_to_list in Hin.
  - intros Hl. exists (item_id i, item_fields i). split; [by destruct i|].
    by apply elem_of_map_to_list.
Qed.

Lemma NoDup_Item_all (w : World) : NoDup (Item_all w).
Proof.
  unfold Item_all. apply NoDup_fmap_2_strong; [|apply NoDup_map_to_list].
  intros [k1 f1] [k2 f2] _ _ Heq. by simplify_eq/=.
Qed.

Lemma elem_of_Cart_all (w : World) (c : Cart) :
  c ∈ Cart_all w ↔ rows (carts w) !! cart_id c = Some (cart_fields c).
Proof.
  unfold Cart_all. rewrite list_elem_of_fmap. split.
  - intros ([k f] & -> & Hin). by apply elem_of_map_to_list in Hin.
  - intros Hl. exists (cart_id c, cart_fields c). split; [by destruct c|].
    by apply elem_of_map_to_list.
Qed.

Lemma NoDup_Cart_all (w : World) : NoDup (Cart_all w).
Proof.
  unfold Cart_all. apply NoDup_fmap_2_strong; [|apply NoDup_map_to_list].
  intros [k1 f1] [k2 f2] _ _ Heq. by simplify_eq/=.
Qed.

(** A lookup by primary key finds the row under that key, if any. *)
Lemma Item_filter_pk (w : World) (k : Z) :
  filter (λ i : Item, item_id i = k) (Item_all w)
  = match rows (items w) !! k with Some f => [mkItem k f] | None => [] end.
Proof.
  destruct (rows (items w) !! k) as [f|] eqn:Hk.
  - apply filter_unique; [apply NoDup_Item_all|by apply elem_of_Item_all|done|].
    intros [k' f'] Hin ?; simplify_eq/=.
    apply elem_of_Item_all in Hin; simpl in Hin. congruence.
  - apply filter_none. intros [k' f'] Hin ?; simplify_eq/=.
    apply elem_of_Item_all in Hin; simpl in Hin. congruence.
Qed.

Lemma Cart_filter_pk (w : World) (k : Z) :
  filter (λ c : Cart, cart_id c = k) (Cart_all w)
  = match rows (carts w) !! k with Some f => [mkCart k f] | None => [] end.
Proof.
  destruct (rows (carts w) !! k) as [f|] eqn:Hk.
  - apply filter_unique; [apply NoDup_Cart_all|by apply elem_of_Cart_all|done|].
    intros [k' f'] Hin ?; simplify_eq/=.
    apply elem_of_Cart_all in Hin; simpl in Hin. congruence.
  - apply filter_none. intros [k' f'] Hin ?; simplify_eq/=.
    apply elem_of_Cart_all in Hin; simpl in Hin. congruence.
Qed.

(** ** update_item and update *)

Lemma try_except_Ok {A} (body : M A) handler w a w' :
  body w = (Ok a, w') → try_except body handler w = (Ok a, w').
Proof. unfold try_except, try_except_else. by intros ->. Qed.

Lemma try_except_caught {A} (body : M A) e0 (h : M A) w w' :
  body w = (Raise e0, w') → try_except body (except e0 h) w = h w'.
Proof.
  unfold try_except, try_except_else, except. intros ->. by rewrite decide_True.
Qed.

(** C7: update_item looks the item up by its primary key alone: whatever
    cart the proxy holds, an item stored under that key gets the given
    quantity (its other columns, the other items and the carts stay as they
    are), and when no item has that key anywhere the call raises
    ItemDoesNotExist and changes nothing. *)
Theorem update_item_by_global_id (self : CartProxy.t) (item_pk q : Z) (w : World) :
  (∀ f, rows (items w) !! item_pk = Some f →
     ∃ w', CartProxy.update_item self item_pk q w = (Ok tt, w')
       ∧ rows (items w') !! item_pk
         = Some (mkItemFields (item_cart f) (product f) (unit_price f) q)
       ∧ (∀ k, k ≠ item_pk → rows (items w') !! k = rows (items w) !! k)
       ∧ carts w' = carts w ∧ session w' = session w)
  ∧ (rows (items w) !! item_pk = None →
     CartProxy.update_item self item_pk q w = (Raise ItemDoesNotExist, w)).
Proof.
  split.
  - intros f Hf. eexists. split.
    + apply try_except_Ok. unfold bind, Item_objects_get.
      rewrite Item_filter_pk, Hf. simpl. reflexivity.
    + simpl. rewrite lookup_insert_eq. split_and!; try done.
      intros k Hk. by rewrite lookup_insert_ne.
  - intros Hf. unfold CartProxy.update_item.
    erewrite try_except_caught; [reflexivity|].
    unfold bind, Item_objects_get. by rewrite Item_filter_pk, Hf.
Qed.

(** The item 3 belongs to cart 2; the proxy of cart 1 sets its quantity. *)
Lemma update_item_by_global_id_witness :
  ∃ w', CartProxy.update_item proxy_cart_1 3 9 world_two_carts = (Ok tt, w')
    ∧ rows (items w') !! 3 = Some (mkItemFields 2 product_A price_10_00 9)
    ∧ (∀ k, k ≠ 3 → rows (items w') !! k = rows (items world_two_carts) !! k)
    ∧ carts w' = carts world_two_carts ∧ session w' = session world_two_carts.
Proof.
  apply (proj1 (update_item_by_global_id proxy_cart_1 3 9 world_two_carts)
               (mkItemFields 2 product_A price_10_00 1)).
  vm_compute. reflexivity.
Defined.

(** C10: update changes nothing but the quantity of the item it matched:
    when the product has one item in the proxy's cart, that item gets the
    quantity and keeps its unit price, product and cart, every other item
    and the carts are as before; the call does the same whatever unit_price
    it is given; and when it raises, nothing has changed. *)
Theorem update_changes_only_quantity
    (self : CartProxy.t) (p : ProductRef) (q : Z) (price : option Decimal)
    (w : World) :
  (∀ it, items_for (cart_id (CartProxy.cart self)) p w = [it] →
     ∃ w', CartProxy.update self p q price w = (Ok tt, w')
       ∧ rows (items w') !! item_id it
         = Some (mkItemFields (item_cart it) (product it) (unit_price it) q)
       ∧ (∀ k, k ≠ item_id it → rows (items w') !! k = rows (items w) !! k)
       ∧ carts w' = carts w ∧ session w' = session w)
  ∧ (∀ e w', CartProxy.update self p q price w = (Raise e, w') → w' = w)
  ∧ (∀ price', CartProxy.update self p q price' w
               = CartProxy.update self p q price w).
Proof.
  split_and!.
  - intros it Hit. eexists. split.
    + apply try_except_Ok. unfold bind, Item_objects_get.
      unfold items_for in Hit. rewrite Hit. simpl. reflexivity.
    + simpl. rewrite lookup_insert_eq. split_and!; try done.
      intros k Hk. by rewrite lookup_insert_ne.
  - intros e w'. unfold CartProxy.update, try_except, try_except_else, bind,
      Item_objects_get, except.
    destruct (get_one _ _) as [it|e']; simpl.
    { intros; simplify_eq. }
    case_decide; unfold raise; intros; by simplify_eq.
  - done.
Qed.

Lemma update_changes_only_quantity_witness :
  ∃ w', CartProxy.update proxy_cart_1 product_A 9 (Some price_10_00)
          world_two_carts = (Ok tt, w')
    ∧ rows (items w') !! 1 = Some (mkItemFields 1 product_A price_3_50 9)
    ∧ (∀ k, k ≠ 1 → rows (items w') !! k = rows (items world_two_carts) !! k)
    ∧ carts w' = carts world_two_carts ∧ session w' = session world_two_carts.
Proof.
  apply (proj1 (update_changes_only_quantity proxy_cart_1 product_A 9
                  (Some price_10_00) world_two_carts)
               (mkItem 1 (mkItemFields 1 product_A price_3_50 2))).
  vm_compute. reflexivity.
Defined.

(** ** remove_item *)

Lemma delete_where_none {A} (P : Z * A → Prop) `{∀ x, Decision (P x)}
    (t : Table A) :
  (∀ k a, rows t !! k = Some a → ¬ P (k, a)) → Tbl.delete_where P t = t.
Proof.
  intros Hnone. destruct t as [m n]. unfold Tbl.delete_where; simpl in *.
  f_equal. apply map_eq. intros k. apply option_eq. intros a.
  rewrite map_lookup_filter_Some. split; [tauto|].
  intros Hk. split; [done|]. by apply Hnone.
Qed.

Lemma with_items_same (w : World) : with_items w (items w) = w.
Proof. by destruct w. Qed.

(** C1 (what the code does): remove_item never raises.  An item of the
    proxy's cart with that id is deleted; when the cart has no such item the
    call returns normally (no ItemDoesNotExist) and the world is as it was. *)
Theorem remove_item_never_raises (self : CartProxy.t) (id : Z) (w : World) :
  ∃ w', CartProxy.remove_item self id w = (Ok tt, w')
    ∧ (∀ f, rows (items w) !! id = Some f →
            item_cart f = cart_id (CartProxy.cart self) →
            rows (items w') = delete id (rows (items w)))
    ∧ ((∀ f, rows (items w) !! id = Some f →
             item_cart f ≠ cart_id (CartProxy.cart self)) →
       w' = w).
Proof.
  eexists. split; [reflexivity|]. split.
  - intros f Hf Hcart. simpl. apply map_eq. intros k. apply option_eq. intros a.
    rewrite map_lookup_filter_Some. simpl.
    destruct (decide (k = id)) as [->|Hne].
    + rewrite lookup_delete_eq, Hf. split; [|done].
      intros [[= <-] Hnot]. destruct Hnot. done.
    + rewrite lookup_delete_ne by done. split; [tauto|].
      intros Hk. split; [done|]. tauto.
  - intros Habs. rewrite delete_where_none; [apply with_items_same|].
    intros k a Hk [Hc Hid]; simpl in *; subst k. by eapply Habs.
Qed.

(** No item has the id 77: the call returns, nothing is raised. *)
Lemma remove_item_never_raises_witness :
  CartProxy.remove_item proxy_cart_1 77 world_two_carts
  = (Ok tt, world_two_carts).
Proof.
  destruct (remove_item_never_raises proxy_cart_1 77 world_two_carts)
    as (w' & Hrun & _ & Hsame).
  rewrite Hrun. f_equal. apply Hsame.
  intros f Hf. vm_compute in Hf. discriminate Hf.
Defined.

(** ** delete_old_cart and replace *)

Lemma delete_old_cart_cases (self : CartProxy.t) (usr : option Z) (w : World) :
  CartProxy.delete_old_cart self usr w
  = match carts_of usr w with
    | [] => (Ok tt, w)
    | [c] => Cart_delete c w
    | _ => (Raise (MultipleObjectsReturned CartModel), w)
    end.
Proof.
  unfold CartProxy.delete_old_cart, try_except, try_except_else, bind,
    Cart_objects_get, carts_of.
  by destruct (filter _ _) as [|c [|c' l]].
Qed.

(** C4 (what the code does): delete_old_cart looks the cart up by user
    alone.  For a user with a checked-out cart and an open one the lookup
    raises MultipleObjectsReturned to the caller and the open cart stays;
    for a user whose only cart is checked out, that cart and its items are
    deleted. *)
Theorem delete_old_cart_ignores_checked_out :
  CartProxy.delete_old_cart proxy_cart_3 (Some 5) world_returning_customer
  = (Raise (MultipleObjectsReturned CartModel), world_returning_customer)
  ∧ ∃ w', CartProxy.delete_old_cart proxy_cart_3 (Some 5) world_checked_out_only
          = (Ok tt, w')
      ∧ rows (carts w') !! 1 = None
      ∧ rows (items w') !! 1 = None.
Proof.
  split; [vm_compute; reflexivity|].
  eexists. split; [vm_compute; reflexivity|]. split; vm_compute; reflexivity.
Qed.

(** When the new owner has a single cart (other than the one to reassign),
    replace deletes it with its items, reassigns the cart and returns it. *)
Lemma replace_one_old_cart (self : CartProxy.t) (cid : Z)
    (new_user : option Z) (w : World) (old : Cart) (f : CartFields) :
  carts_of new_user w = [old] → cart_id old ≠ cid →
  rows (carts w) !! cid = Some f →
  ∃ w', CartProxy.replace self cid new_user w
        = (Ok (set_user (mkCart cid f) new_user), w')
    ∧ rows (carts w')
      = <[cid := cart_fields (set_user (mkCart cid f) new_user)]>
          (delete (cart_id old) (rows (carts w)))
    ∧ ∀ k i, rows (items w') !! k = Some i
             ↔ rows (items w) !! k = Some i ∧ item_cart i ≠ cart_id old.
Proof.
  intros Hone Hne Hc. unfold CartProxy.replace, try_except, try_except_else.
  unfold bind at 1. rewrite delete_old_cart_cases, Hone.
  unfold Cart_delete, bind, Cart_objects_get.
  rewrite Cart_filter_pk. simpl. rewrite lookup_delete_ne, Hc by done. simpl.
  eexists. split; [reflexivity|]. simpl. split; [done|].
  intros k i. rewrite map_lookup_filter_Some. simpl. tauto.
Qed.

(** When the new owner has no cart and the key has no row, replace raises
    CartDoesNotExist and changes nothing. *)
Lemma replace_missing_cart (self : CartProxy.t) (cid : Z)
    (new_user : option Z) (w : World) :
  carts_of new_user w = [] → rows (carts w) !! cid = None →
  CartProxy.replace self cid new_user w = (Raise CartDoesNotExist, w).
Proof.
  intros Hnone Hc. unfold CartProxy.replace, try_except, try_except_else.
  unfold bind at 1. rewrite delete_old_cart_cases, Hnone.
  unfold bind, Cart_objects_get. rewrite Cart_filter_pk, Hc. reflexivity.
Qed.

(** C5 (what the code does): on the same world replace raises
    MultipleObjectsReturned out of delete_old_cart: the open cart 2 of the
    new owner is not deleted and cart 3 is not reassigned. *)
Theorem replace_raises_for_returning_customer :
  CartProxy.replace proxy_cart_3 3 (Some 5) world_returning_customer
  = (Raise (MultipleObjectsReturned CartModel), world_returning_customer).
Proof. vm_compute. reflexivity. Qed.

(** ** add *)

Lemma wf_fresh {A} (t : Table A) : Tbl.wf t → rows t !! (last_pk t + 1) = None.
Proof.
  intros Hwf. destruct (rows t !! (last_pk t + 1)) eqn:Hk; [|done].
  pose proof (Hwf (last_pk t + 1) (mk_is_Some _ _ Hk)). lia.
Qed.

Lemma wf_list_to_map {A} (l : list (Z * A)) (n : Z) :
  Forall (λ kv, kv.1 ≤ n) l → Tbl.wf (mkTable (list_to_map l) n).
Proof.
  intros Hall k [a Hk]; simpl in *.
  apply elem_of_list_to_map_2 in Hk.
  by apply (proj1 (Forall_forall _ _) Hall (k, a)).
Qed.

(** The objects of a table that got one more row. *)
Lemma Item_all_insert (w w' : World) (k : Z) (f : ItemFields) :
  rows (items w) !! k = None →
  rows (items w') = <[k := f]> (rows (items w)) →
  Item_all w' ≡ₚ mkItem k f :: Item_all w.
Proof.
  intros Hk Hrows. unfold Item_all. rewrite Hrows.
  by rewrite map_to_list_insert.
Qed.

Lemma items_for_insert (w w' : World) (k : Z) (f : ItemFields)
    (cid : Z) (p : ProductRef) :
  rows (items w) !! k = None →
  rows (items w') = <[k := f]> (rows (items w)) →
  item_cart f = cid → product f = p →
  items_for cid p w' ≡ₚ mkItem k f :: items_for cid p w.
Proof.
  intros Hk Hrows Hc Hp. unfold items_for.
  rewrite (Item_all_insert w w' k f Hk Hrows).
  by rewrite filter_cons_True.
Qed.

Lemma add_lookup (cid : Z) (p : ProductRef) (w : World) :
  filter (λ i : Item, item_cart i = cid ∧ product i = p
                      ∧ content_type (product i) = content_type p)
         (Item_all w)
  = items_for cid p w.
Proof.
  apply list_filter_iff. intros i. split; [tauto|].
  intros [Hc Hp]. by rewrite Hp.
Qed.

(** C2: on a cart without an item for the product, add creates one item
    (a new row, the table is otherwise as before) with the given unit price
    and quantity and returns it; a second add for the product on that cart
    returns the item under the same key with quantity q1 + q2 and the unit
    price of the first call, whatever price the second call gives, and the
    cart then holds that one item for the product. *)
Theorem add_twice_aggregates
    (self : CartProxy.t) (p : ProductRef) (price price2 : Decimal)
    (q1 q2 : Z) (w : World) :
  Tbl.wf (items w) →
  items_for (cart_id (CartProxy.cart self)) p w = [] →
  ∃ (k : Z) (w1 w2 : World),
    CartProxy.add self p price q1 w
    = (Ok (mkItem k (mkItemFields (cart_id (CartProxy.cart self)) p price q1)),
       w1)
    ∧ rows (items w) !! k = None
    ∧ rows (items w1)
      = <[k := mkItemFields (cart_id (CartProxy.cart self)) p price q1]>
          (rows (items w))
    ∧ items_for (cart_id (CartProxy.cart self)) p w1
      = [mkItem k (mkItemFields (cart_id (CartProxy.cart self)) p price q1)]
    ∧ CartProxy.add self p price2 q2 w1
      = (Ok (mkItem k (mkItemFields (cart_id (CartProxy.cart self)) p price
                                    (q1 + q2))),
         w2)
    ∧ rows (items w2)
      = <[k := mkItemFields (cart_id (CartProxy.cart self)) p price (q1 + q2)]>
          (rows (items w))
    ∧ items_for (cart_id (CartProxy.cart self)) p w2
      = [mkItem k (mkItemFields (cart_id (CartProxy.cart self)) p price
                                (q1 + q2))].
Proof.
  intros Hwf Hnone.
  set (cid := cart_id (CartProxy.cart self)) in *.
  set (k := last_pk (items w) + 1).
  set (f := mkItemFields cid p price q1).
  set (f2 := mkItemFields cid p price (q1 + q2)).
  pose proof (wf_fresh _ Hwf) as Hfresh. fold k in Hfresh.
  set (w1 := with_items w (mkTable (<[k := f]> (rows (items w))) k)).
  assert (Hadd1 : CartProxy.add self p price q1 w = (Ok (mkItem k f), w1)).
  { unfold CartProxy.add, try_except_else, Item_objects_get.
    fold cid. rewrite add_lookup, Hnone. simpl. reflexivity. }
  assert (Hfor1 : items_for cid p w1 = [mkItem k f]).
  { apply Permutation_singleton_r.
    rewrite (items_for_insert w w1 k f cid p) by done. by rewrite Hnone. }
  set (w2 := with_items w1 (Tbl.save k f2 (items w1))).
  assert (Hrows2 : rows (items w2) = <[k := f2]> (rows (items w))).
  { simpl. by rewrite insert_insert_eq. }
  exists k, w1, w2. split_and!; try done.
  - unfold CartProxy.add, try_except_else, Item_objects_get.
    fold cid. rewrite add_lookup, Hfor1. simpl. reflexivity.
  - apply Permutation_singleton_r.
    rewrite (items_for_insert w w2 k f2 cid p) by done.
    by rewrite Hnone.
Qed.

Lemma world_two_carts_wf : Tbl.wf (items world_two_carts).
Proof. apply wf_list_to_map. repeat constructor; simpl; lia. Defined.

(** Cart 2 has no item for product B: add(B, 10.00, 2) then add(B, 1.25, 3). *)
Lemma add_twice_aggregates_witness :
  ∃ (k : Z) (w1 w2 : World),
    CartProxy.add proxy_cart_2 product_B price_10_00 2 world_two_carts
    = (Ok (mkItem k (mkItemFields 2 product_B price_10_00 2)), w1)
    ∧ rows (items world_two_carts) !! k = None
    ∧ rows (items w1)
      = <[k := mkItemFields 2 product_B price_10_00 2]>
          (rows (items world_two_carts))
    ∧ items_for 2 product_B w1
      = [mkItem k (mkItemFields 2 product_B price_10_00 2)]
    ∧ CartProxy.add proxy_cart_2 product_B price_1_25 3 w1
      = (Ok (mkItem k (mkItemFields 2 product_B price_10_00 (2 + 3))), w2)
    ∧ rows (items w2)
      = <[k := mkItemFields 2 product_B price_10_00 (2 + 3)]>
          (rows (items world_two_carts))
    ∧ items_for 2 product_B w2
      = [mkItem k (mkItemFields 2 product_B price_10_00 (2 + 3))].
Proof.
  apply (add_twice_aggregates proxy_cart_2 product_B price_10_00 price_1_25
           2 3 world_two_carts).
  - exact world_two_carts_wf.
  - vm_compute. reflexivity.
Defined.

(** ** total *)

Lemma ten_nonzero : ¬ ((10 # 1) == 0)%Q.
Proof. discriminate. Qed.

Lemma Dec_value_rescale (c e e' : Z) :
  e' ≤ e →
  (inject_Z (c * 10 ^ (e - e')) * Qpower (10 # 1) e'
   == inject_Z c * Qpower (10 # 1) e)%Q.
Proof.
  intros Hle. rewrite inject_Z_mult, Zpower_Qpower by lia.
  replace e with ((e - e') + e') at 2 by lia.
  rewrite (Qpower_plus (10 # 1) (e - e') e' ten_nonzero).
  change (inject_Z 10) with (10 # 1)%Q. ring.
Qed.

Lemma Dec_value_add_exact (a b : Decimal) :
  (Dec.value (Dec.add_exact a b) == Dec.value a + Dec.value b)%Q.
Proof.
  unfold Dec.value, Dec.add_exact; simpl.
  rewrite inject_Z_plus, Qmult_plus_distr_l.
  rewrite !Dec_value_rescale by lia. reflexivity.
Qed.

Lemma Dec_value_mul_exact (a b : Decimal) :
  (Dec.value (Dec.mul_exact a b) == Dec.value a * Dec.value b)%Q.
Proof.
  unfold Dec.value, Dec.mul_exact; simpl.
  rewrite inject_Z_mult, (Qpower_plus (10 # 1) _ _ ten_nonzero). ring.
Qed.

Lemma Dec_value_of_int (n : Z) : (Dec.value (Dec.of_int n) == inject_Z n)%Q.
Proof. unfold Dec.value, Dec.of_int; simpl. ring. Qed.

(** A coefficient of at most 28 digits is not rounded. *)
Lemma fix_context_small (d : Decimal) :
  Z.abs (coefficient d) < 10 ^ Dec.prec → Dec.fix_context d = d.
Proof.
  intros Hlt. unfold Dec.fix_context.
  by rewrite (proj2 (Z.ltb_lt _ _) Hlt).
Qed.

Lemma pow10_ge_1 (n : Z) : 0 ≤ n → 1 ≤ 10 ^ n.
Proof. intros Hn. pose proof (Z.pow_pos_nonneg 10 n). lia. Qed.

Lemma magnitude_nonneg (emin : Z) (d : Decimal) : 0 ≤ magnitude emin d.
Proof.
  unfold magnitude. apply Z.mul_nonneg_nonneg; [apply Z.abs_nonneg|].
  apply Z.pow_nonneg. lia.
Qed.

Lemma item_magnitude_nonneg (emin : Z) (i : Item) : 0 ≤ item_magnitude emin i.
Proof.
  unfold item_magnitude. apply Z.mul_nonneg_nonneg; [apply Z.abs_nonneg|].
  apply Z.pow_nonneg. lia.
Qed.

Lemma coefficient_le_magnitude (emin : Z) (d : Decimal) :
  emin ≤ exponent d → Z.abs (coefficient d) ≤ magnitude emin d.
Proof.
  intros Hle. unfold magnitude.
  pose proof (pow10_ge_1 (exponent d - emin) ltac:(lia)).
  pose proof (Z.abs_nonneg (coefficient d)). nia.
Qed.

Lemma magnitude_add_exact (emin : Z) (a b : Decimal) :
  emin ≤ exponent a → emin ≤ exponent b →
  emin ≤ exponent (Dec.add_exact a b)
  ∧ magnitude emin (Dec.add_exact a b) ≤ magnitude emin a + magnitude emin b.
Proof.
  intros Ha Hb. unfold magnitude, Dec.add_exact; simpl.
  set (e := Z.min (exponent a) (exponent b)).
  assert (He : emin ≤ e) by (unfold e; lia). split; [done|].
  assert (Hpa : 10 ^ (exponent a - emin)
                = 10 ^ (exponent a - e) * 10 ^ (e - emin)).
  { rewrite <- Z.pow_add_r by (unfold e; lia). f_equal. lia. }
  assert (Hpb : 10 ^ (exponent b - emin)
                = 10 ^ (exponent b - e) * 10 ^ (e - emin)).
  { rewrite <- Z.pow_add_r by (unfold e; lia). f_equal. lia. }
  rewrite Hpa, Hpb.
  pose proof (Z.pow_nonneg 10 (e - emin) ltac:(lia)) as H0.
  pose proof (Z.pow_nonneg 10 (exponent a - e) ltac:(lia)) as H1.
  pose proof (Z.pow_nonneg 10 (exponent b - e) ltac:(lia)) as H2.
  pose proof (Z.abs_triangle (coefficient a * 10 ^ (exponent a - e))
                             (coefficient b * 10 ^ (exponent b - e))) as Ht.
  rewrite !Z.abs_mul, !(Z.abs_eq (10 ^ _)) in Ht by done.
  nia.
Qed.

Lemma Dec_add_within (emin : Z) (a b : Decimal) :
  emin ≤ exponent a → emin ≤ exponent b →
  magnitude emin a + magnitude emin b < 10 ^ Dec.prec →
  Dec.add a b = Dec.add_exact a b.
Proof.
  intros Ha Hb Hlt. apply fix_context_small.
  destruct (magnitude_add_exact emin a b Ha Hb) as [He Hm].
  pose proof (coefficient_le_magnitude emin _ He). lia.
Qed.

(** The total price of an item whose size is within the precision. *)
Lemma total_price_within (emin : Z) (i : Item) :
  emin ≤ exponent (unit_price i) →
  item_magnitude emin i < 10 ^ Dec.prec →
  ∃ d, total_price i = Dec d
     ∧ emin ≤ exponent d
     ∧ magnitude emin d = item_magnitude emin i
     ∧ (Dec.value d == Dec.value (unit_price i) * inject_Z (quantity i))%Q.
Proof.
  intros He Hlt.
  exists (Dec.mul_exact (Dec.of_int (quantity i)) (unit_price i)).
  assert (Hm : magnitude emin
                 (Dec.mul_exact (Dec.of_int (quantity i)) (unit_price i))
               = item_magnitude emin i) by reflexivity.
  split_and!; try done.
  - unfold total_price, py_mul. simpl. f_equal. apply fix_context_small.
    pose proof (coefficient_le_magnitude emin
                  (Dec.mul_exact (Dec.of_int (quantity i)) (unit_price i))
                  ltac:(simpl; lia)). lia.
  - rewrite Dec_value_mul_exact, Dec_value_of_int. apply Qmult_comm.
Qed.

Lemma item_magnitudes_nonneg (emin : Z) (l : list Item) :
  0 ≤ foldr Z.add 0 (item_magnitude emin <$> l).
Proof.
  induction l as [|y l IH]; [done|].
  rewrite fmap_cons.
  change (foldr Z.add 0 (?x :: ?xs)) with (x + foldr Z.add 0 xs).
  pose proof (item_magnitude_nonneg emin y). lia.
Qed.

(** The sum of unit price times quantity over a list of items. *)
Lemma foldl_total_prices (emin : Z) (l : list Item) (acc : Decimal) :
  emin ≤ exponent acc →
  Forall (λ i : Item, emin ≤ exponent (unit_price i)) l →
  magnitude emin acc + foldr Z.add 0 (item_magnitude emin <$> l)
  < 10 ^ Dec.prec →
  ∃ r, foldl py_add (Dec acc) (total_price <$> l) = Dec r
     ∧ emin ≤ exponent r
     ∧ magnitude emin r
       ≤ magnitude emin acc + foldr Z.add 0 (item_magnitude emin <$> l)
     ∧ (Dec.value r
        == Dec.value acc
           + Qsum ((λ i : Item,
                      Dec.value (unit_price i) * inject_Z (quantity i))%Q
                   <$> l))%Q.
Proof.
  revert acc. induction l as [|x l IH]; intros acc Hacc Hall Hlt.
  - exists acc. simpl in *. split_and!; [done|done|lia|].
    unfold Qsum; simpl. ring.
  - apply Forall_cons in Hall as [Hx Hall].
    rewrite fmap_cons in Hlt.
    change (foldr Z.add 0 (?y :: ?ys)) with (y + foldr Z.add 0 ys) in Hlt.
    pose proof (item_magnitudes_nonneg emin l) as Hrest.
    pose proof (magnitude_nonneg emin acc) as Hacc0.
    destruct (total_price_within emin x Hx ltac:(lia))
      as (dx & Hdx & Hedx & Hmdx & Hvdx).
    destruct (magnitude_add_exact emin acc dx Hacc Hedx) as [He' Hm'].
    destruct (IH (Dec.add_exact acc dx) He' Hall ltac:(lia))
      as (r & Hr & Her & Hmr & Hvr).
    exists r. split_and!.
    + rewrite fmap_cons. cbn [foldl]. rewrite Hdx. cbn [py_add to_decimal].
      rewrite (Dec_add_within emin acc dx) by (done || lia). exact Hr.
    + done.
    + rewrite fmap_cons.
      change (foldr Z.add 0 (?y :: ?ys)) with (y + foldr Z.add 0 ys). lia.
    + rewrite Hvr, Dec_value_add_exact, Hvdx, fmap_cons.
      change (Qsum (?y :: ?ys)) with (y + Qsum ys)%Q. ring.
Qed.

Lemma py_sum_total_prices (emin : Z) (l : list Item) :
  within_precision emin l →
  (number_value (py_sum (total_price <$> l))
   == Qsum ((λ i : Item, Dec.value (unit_price i) * inject_Z (quantity i))%Q
            <$> l))%Q
  ∧ (l ≠ [] →
     ∃ r, py_sum (total_price <$> l) = Dec r
        ∧ emin ≤ exponent r
        ∧ magnitude emin r ≤ foldr Z.add 0 (item_magnitude emin <$> l)).
Proof.
  intros ([Hlo Hhi] & Hall & Hlt).
  destruct l as [|x l]; [split; [reflexivity|done]|].
  change (py_sum (total_price <$> x :: l))
    with (foldl py_add (Dec (Dec.of_int 0)) (total_price <$> x :: l)).
  destruct (foldl_total_prices emin (x :: l) (Dec.of_int 0))
    as (r & Hr & Her & Hmr & Hvr); [done|done|done|].
  rewrite Hr. split.
  - cbn [number_value]. rewrite Hvr, Dec_value_of_int. apply Qplus_0_l.
  - intros _. exists r. split_and!; [done|done|].
    change (magnitude emin (Dec.of_int 0)) with 0 in Hmr. lia.
Qed.

Lemma exact_total_rows (cid : Z) (l : list (Z * ItemFields)) :
  (Qsum ((λ i : Item, Dec.value (unit_price i) * inject_Z (quantity i))%Q
         <$> filter (λ i : Item, item_cart i = cid)
                    ((λ kv, mkItem kv.1 kv.2) <$> l))
   == foldr (uncurry (add_row_total cid)) 0%Q l)%Q.
Proof.
  induction l as [|[k f] l IH]; [reflexivity|].
  change (foldr (uncurry (add_row_total cid)) 0%Q ((k, f) :: l))
    with (add_row_total cid k f (foldr (uncurry (add_row_total cid)) 0%Q l)).
  rewrite fmap_cons. unfold add_row_total at 1.
  destruct (decide (item_cart f = cid)) as [Hc|Hc].
  - rewrite filter_cons_True by exact Hc. rewrite fmap_cons.
    change (Qsum (?x :: ?xs)) with (x + Qsum xs)%Q.
    rewrite IH. reflexivity.
  - rewrite filter_cons_False by exact Hc. apply IH.
Qed.

Lemma total_value_exact (emin : Z) (self : CartProxy.t) (w : World) :
  within_precision emin (item_set (CartProxy.cart self) w) →
  (number_value (CartProxy.total self w)
   == Qsum ((λ i : Item, Dec.value (unit_price i) * inject_Z (quantity i))%Q
            <$> item_set (CartProxy.cart self) w))%Q.
Proof. intros Hfit. apply (py_sum_total_prices emin _ Hfit). Qed.

Lemma total_is_exact_total (emin : Z) (self : CartProxy.t) (w : World) :
  within_precision emin (item_set (CartProxy.cart self) w) →
  (number_value (CartProxy.total self w)
   == exact_total (cart_id (CartProxy.cart self)) w)%Q.
Proof.
  intros Hfit. rewrite (total_value_exact emin self w Hfit).
  unfold exact_total, item_set, Item_all.
  rewrite map_fold_foldr. apply exact_total_rows.
Qed.

(** C6 (as stated) fails: the eleven items of [world_eleven_items] total
    236223201169999999763776798.6, the sums of more than 28 digits having
    been rounded, while unit price times quantity adds up to
    236223201169999999763776798.83. *)
Lemma total_is_rounded :
  CartProxy.total proxy_cart_1 world_eleven_items
  = Dec (mkDecimal 2362232011699999997637767986 (-1))
  ∧ (exact_total 1 world_eleven_items
     == inject_Z 23622320116999999976377679883 / inject_Z 100)%Q
  ∧ ¬ (number_value (CartProxy.total proxy_cart_1 world_eleven_items)
       == exact_total (cart_id (CartProxy.cart proxy_cart_1))
                      world_eleven_items)%Q.
Proof.
  split_and!.
  - vm_compute. reflexivity.
  - vm_compute. reflexivity.
  - intros Heq. vm_compute in Heq. discriminate Heq.
Qed.

(** C6 (amended): when the total prices of the cart's items, added up in
    absolute value, have at most 28 digits in units of 10 ^ emin (emin at
    most 0 and at most every exponent of a unit price), the value of total()
    is the exact sum of unit price times quantity over the items of the
    cart; a cart without items totals the int 0; items (3.50, 2) and
    (1.25, 4) total the Decimal 12.00 (coefficient 1200, exponent -2). *)
Theorem total_is_exact_sum (self : CartProxy.t) (w : World) :
  (∀ emin : Z,
     within_precision emin (item_set (CartProxy.cart self) w) →
     (number_value (CartProxy.total self w)
      == exact_total (cart_id (CartProxy.cart self)) w)%Q)
  ∧ (item_set (CartProxy.cart self) w = [] → CartProxy.total self w = Int 0)
  ∧ (∀ i1 i2 : Item,
       item_set (CartProxy.cart self) w ≡ₚ [i1; i2] →
       unit_price i1 = mkDecimal 350 (-2) → quantity i1 = 2 →
       unit_price i2 = mkDecimal 125 (-2) → quantity i2 = 4 →
       CartProxy.total self w = Dec (mkDecimal 1200 (-2))).
Proof.
  split_and!.
  - intros emin Hfit. by apply (total_is_exact_total emin).
  - unfold CartProxy.total. by intros ->.
  - intros i1 i2 Hperm Hp1 Hq1 Hp2 Hq2. unfold CartProxy.total.
    symmetry in Hperm.
    apply Permutation_length_2_inv in Hperm as [-> | ->];
      rewrite !fmap_cons, fmap_nil; unfold total_price;
      rewrite Hp1, Hq1, Hp2, Hq2; vm_compute; reflexivity.
Qed.

Lemma world_two_carts_within_precision :
  within_precision (-2) (item_set (CartProxy.cart proxy_cart_1) world_two_carts).
Proof.
  assert (Hset : item_set (CartProxy.cart proxy_cart_1) world_two_carts
                 = [mkItem 2 (mkItemFields 1 product_B price_1_25 4);
                    mkItem 1 (mkItemFields 1 product_A price_3_50 2)])
    by (vm_compute; reflexivity).
  rewrite Hset. split_and!.
  - unfold Dec.etiny. lia.
  - lia.
  - repeat constructor; simpl; lia.
  - vm_compute. reflexivity.
Defined.

(** Cart 1 of [world_two_carts] holds the two items of the example, which
    are within the precision. *)
Lemma total_is_exact_sum_witness :
  (number_value (CartProxy.total proxy_cart_1 world_two_carts)
   == exact_total (cart_id (CartProxy.cart proxy_cart_1)) world_two_carts)%Q
  ∧ CartProxy.total proxy_cart_1 world_two_carts = Dec (mkDecimal 1200 (-2)).
Proof.
  split.
  - apply (proj1 (total_is_exact_sum proxy_cart_1 world_two_carts) (-2)).
    exact world_two_carts_within_precision.
  - apply (proj2 (proj2 (total_is_exact_sum proxy_cart_1 world_two_carts))
             (mkItem 1 (mkItemFields 1 product_A price_3_50 2))
             (mkItem 2 (mkItemFields 1 product_B price_1_25 4))).
    + vm_compute. apply perm_swap.
    + reflexivity.
    + reflexivity.
    + reflexivity.
    + reflexivity.
Defined.

(** ** count and unique_count *)

Lemma foldl_py_add_ints (qs : list Z) (acc : Z) :
  foldl py_add (Int acc) (Int <$> qs) = Int (acc + foldr Z.add 0 qs).
Proof.
  revert acc. induction qs as [|q qs IH]; intros acc; simpl.
  - f_equal. lia.
  - rewrite IH. f_equal. lia.
Qed.

Lemma quantity_rows (cid : Z) (l : list (Z * ItemFields)) :
  foldr Z.add 0
    (quantity <$> (item_fields <$>
       filter (λ i : Item, item_cart i = cid) ((λ kv, mkItem kv.1 kv.2) <$> l)))
  = foldr (uncurry (add_row_quantity cid)) 0 l.
Proof.
  induction l as [|[k f] l IH]; [reflexivity|].
  change (foldr (uncurry (add_row_quantity cid)) 0 ((k, f) :: l))
    with (add_row_quantity cid k f (foldr (uncurry (add_row_quantity cid)) 0 l)).
  rewrite fmap_cons. unfold add_row_quantity at 1.
  destruct (decide (item_cart f = cid)) as [Hc|Hc].
  - rewrite filter_cons_True by exact Hc. rewrite !fmap_cons. simpl.
    by rewrite IH.
  - rewrite filter_cons_False by exact Hc. apply IH.
Qed.

Lemma length_filter_fmap {A B} (f : A → B) (P : B → Prop)
    `{∀ y, Decision (P y)} (l : list A) :
  length (filter P (f <$> l)) = length (filter (λ x, P (f x)) l).
Proof.
  induction l as [|a l IH]; [done|].
  rewrite fmap_cons, !filter_cons. simpl.
  destruct (decide (P (f a))); simpl; by rewrite IH.
Qed.

Lemma unique_count_rows (self : CartProxy.t) (w : World) :
  CartProxy.unique_count self w
  = length (filter (λ kv : Z * ItemFields,
                      item_cart kv.2 = cart_id (CartProxy.cart self))
                   (map_to_list (rows (items w)))).
Proof.
  unfold CartProxy.unique_count, item_set, Item_all.
  by rewrite length_filter_fmap.
Qed.

Lemma unique_count_cart_column (self : CartProxy.t) (w : World) :
  CartProxy.unique_count self w
  = length (filter (λ kc : Z * Z, kc.2 = cart_id (CartProxy.cart self))
                   (map_to_list (item_cart <$> rows (items w)))).
Proof.
  rewrite unique_count_rows, map_to_list_fmap.
  by rewrite length_filter_fmap.
Qed.

(** The first [add] of a product to a cart inserts a row. *)
Lemma add_new (self : CartProxy.t) (p : ProductRef) (price : Decimal)
    (q : Z) (w : World) :
  items_for (cart_id (CartProxy.cart self)) p w = [] →
  let k := last_pk (items w) + 1 in
  let f := mkItemFields (cart_id (CartProxy.cart self)) p price q in
  CartProxy.add self p price q w
  = (Ok (mkItem k f), with_items w (mkTable (<[k := f]> (rows (items w))) k)).
Proof.
  intros Hnone. unfold CartProxy.add, try_except_else, Item_objects_get.
  rewrite add_lookup, Hnone. reflexivity.
Qed.

Lemma wf_insert {A} (t : Table A) (a : A) :
  Tbl.wf t → Tbl.wf (Tbl.insert a t).2.
Proof.
  intros Hwf k [x Hk]; simpl in *.
  destruct (decide (k = last_pk t + 1)) as [->|Hne]; [lia|].
  rewrite lookup_insert_ne in Hk by done.
  pose proof (Hwf k (mk_is_Some _ _ Hk)). lia.
Qed.

Lemma item_set_insert (w w' : World) (k : Z) (f : ItemFields) (c : Cart) :
  rows (items w) !! k = None →
  rows (items w') = <[k := f]> (rows (items w)) →
  item_cart f = cart_id c →
  item_set c w' ≡ₚ mkItem k f :: item_set c w.
Proof.
  intros Hk Hrows Hc. unfold item_set.
  rewrite (Item_all_insert w w' k f Hk Hrows).
  by rewrite filter_cons_True.
Qed.

Lemma items_for_insert_other (w w' : World) (k : Z) (f : ItemFields)
    (cid : Z) (p : ProductRef) :
  rows (items w) !! k = None →
  rows (items w') = <[k := f]> (rows (items w)) →
  product f ≠ p →
  items_for cid p w' ≡ₚ items_for cid p w.
Proof.
  intros Hk Hrows Hp. unfold items_for.
  rewrite (Item_all_insert w w' k f Hk Hrows).
  rewrite filter_cons_False; [done|]. simpl. tauto.
Qed.

Lemma items_for_empty_cart (c : Cart) (p : ProductRef) (w : World) :
  item_set c w = [] → items_for (cart_id c) p w = [].
Proof.
  intros Hempty. apply filter_none. intros i Hi [Hc _].
  eapply (filter_nil_not_elem_of _ _ i Hempty); done.
Qed.

(** C9: count() is the int whose value is the sum of the quantities of the
    cart's item rows; unique_count() is the number of item rows of the cart,
    and is the same in any two worlds whose item tables agree on the cart
    column, whatever the quantities are; and after adding two distinct
    products to a cart without items, unique_count() is 2. *)
Theorem count_and_unique_count (self : CartProxy.t) (w : World) :
  CartProxy.count self w
  = Int (quantity_total (cart_id (CartProxy.cart self)) w)
  ∧ CartProxy.unique_count self w
    = record_count (cart_id (CartProxy.cart self)) w
  ∧ (∀ w', item_cart <$> rows (items w') = item_cart <$> rows (items w) →
           CartProxy.unique_count self w' = CartProxy.unique_count self w)
  ∧ (∀ (pa pb : ProductRef) (price_a price_b : Decimal) (qa qb : Z),
       Tbl.wf (items w) →
       item_set (CartProxy.cart self) w = [] →
       pa ≠ pb →
       ∃ (ia ib : Item) (w1 w2 : World),
         CartProxy.add self pa price_a qa w = (Ok ia, w1)
         ∧ CartProxy.add self pb price_b qb w1 = (Ok ib, w2)
         ∧ CartProxy.unique_count self w2 = 2%nat).
Proof.
  set (c := CartProxy.cart self).
  split_and!.
  - unfold CartProxy.count, quantity_total, py_sum. fold c.
    rewrite map_fold_foldr, <- quantity_rows.
    change (λ i : Item, Int (quantity i))
      with (Int ∘ (quantity ∘ item_fields)).
    rewrite !list_fmap_compose, foldl_py_add_ints. reflexivity.
  - rewrite unique_count_rows. unfold record_count. fold c.
    rewrite map_filter_alt, map_size_list_to_map; [done|].
    eapply NoDup_fmap_fst.
    + intros k f1 f2 [_ H1]%list_elem_of_filter [_ H2]%list_elem_of_filter.
      apply elem_of_map_to_list in H1, H2. congruence.
    + apply NoDup_filter, NoDup_map_to_list.
  - intros w' Hcol. rewrite !unique_count_cart_column. by rewrite Hcol.
  - intros pa pb price_a price_b qa qb Hwf Hempty Hne.
    set (k1 := last_pk (items w) + 1).
    set (fa := mkItemFields (cart_id c) pa price_a qa).
    set (w1 := with_items w (mkTable (<[k1 := fa]> (rows (items w))) k1)).
    set (k2 := last_pk (items w1) + 1).
    set (fb := mkItemFields (cart_id c) pb price_b qb).
    set (w2 := with_items w1 (mkTable (<[k2 := fb]> (rows (items w1))) k2)).
    pose proof (wf_fresh _ Hwf) as Hfresh1. fold k1 in Hfresh1.
    assert (Hwf1 : Tbl.wf (items w1)) by apply (wf_insert _ fa Hwf).
    pose proof (wf_fresh _ Hwf1) as Hfresh2. fold k2 in Hfresh2.
    assert (Hb1 : items_for (cart_id c) pb w1 = []).
    { apply Permutation_nil_r.
      rewrite (items_for_insert_other w w1 k1 fa) by done.
      by rewrite items_for_empty_cart. }
    exists (mkItem k1 fa), (mkItem k2 fb), w1, w2. split_and!.
    + apply add_new. by apply items_for_empty_cart.
    + by apply add_new.
    + unfold CartProxy.unique_count. fold c.
      rewrite (item_set_insert w1 w2 k2 fb c) by done.
      rewrite (item_set_insert w w1 k1 fa c) by done.
      by rewrite Hempty.
Qed.

Lemma count_and_unique_count_witness :
  ∃ (ia ib : Item) (w1 w2 : World),
    CartProxy.add proxy_cart_1 product_A price_3_50 2 world_empty_cart
    = (Ok ia, w1)
    ∧ CartProxy.add proxy_cart_1 product_B price_1_25 4 w1 = (Ok ib, w2)
    ∧ CartProxy.unique_count proxy_cart_1 w2 = 2%nat.
Proof.
  apply (proj2 (proj2 (proj2
           (count_and_unique_count proxy_cart_1 world_empty_cart)))).
  - intros k [f Hk]. vm_compute in Hk. discriminate Hk.
  - vm_compute. reflexivity.
  - discriminate.
Defined.

(** ** __init__ *)


Lemma Cart_get_stored (P : Cart → Prop) `{∀ c, Decision (P c)}
    (w : World) (c : Cart) :
  filter P (Cart_all w) = [c] →
  rows (carts w) !! cart_id c = Some (cart_fields c) ∧ P c.
Proof.
  intros (Hin & HP & _)%filter_singleton_inv.
  by apply elem_of_Cart_all in Hin.
Qed.

(** The [try] block of [__init__] leaves the world as it is; a cart it
    finds is a stored open cart; with a request, the local [user] is bound
    to the user of the request (None when anonymous). *)
Lemma init_try_outcome (request : option Request) (w : World) :
  ∃ usr res,
    CartProxy.init_try request w = (usr, res, w)
    ∧ (∀ c, res = Ok c →
            rows (carts w) !! cart_id c = Some (cart_fields c)
            ∧ checked_out c = false)
    ∧ (∀ r, request = Some r → usr = Bound (req_user r)).
Proof.
  unfold CartProxy.init_try. destruct request as [[[uid|]]|]; simpl.
  - unfold Cart_objects_get.
    destruct (filter _ (Cart_all w)) as [|c [|c' l]] eqn:Hf; simpl;
      do 2 eexists; (split; [reflexivity|]); split; intros; simplify_eq; try done.
    apply Cart_get_stored in Hf as [Hst [_ Hopen]]. done.
  - unfold bind, session_get, Cart_objects_get.
    destruct (filter _ (Cart_all w)) as [|c [|c' l]] eqn:Hf; simpl;
      do 2 eexists; (split; [reflexivity|]); split; intros; simplify_eq; try done.
    apply Cart_get_stored in Hf as [Hst [_ Hopen]]. done.
  - do 2 eexists. split; [reflexivity|]. split; intros; simplify_eq.
Qed.

(** The open cart a session id names, if any. *)
Lemma Cart_filter_session (w : World) (sid : option Z) :
  filter (λ c : Cart, Some (cart_id c) = sid ∧ checked_out c = false)
         (Cart_all w)
  = match sid with
    | Some k =>
        match rows (carts w) !! k with
        | Some f => if checked_out f then [] else [mkCart k f]
        | None => []
        end
    | None => []
    end.
Proof.
  destruct sid as [k|]; [|by apply filter_none; intros c _ [? _]].
  destruct (rows (carts w) !! k) as [f|] eqn:Hk.
  - destruct (checked_out f) eqn:Hco.
    + apply filter_none. intros [k' f'] Hin [[= ->] Hopen]; simpl in *.
      apply elem_of_Cart_all in Hin; simpl in Hin. congruence.
    + apply filter_unique;
        [apply NoDup_Cart_all|by apply elem_of_Cart_all|done|].
      intros [k' f'] Hin [[= ->] _]; simpl in *.
      apply elem_of_Cart_all in Hin; simpl in Hin. congruence.
  - apply filter_none. intros [k' f'] Hin [[= ->] _]; simpl in *.
    apply elem_of_Cart_all in Hin; simpl in Hin. congruence.
Qed.

(** What [__init__] does with a request and no supplied cart. *)
Lemma init_request_cases (r : Request) (w : World) :
  CartProxy.init (Some r) None w
  = match open_carts_for r w with
    | [c] => (Ok (CartProxy.mk (Some r) c), w)
    | _ =>
        let k := last_pk (carts w) + 1 in
        let f := mkCartFields (clock w) (req_user r) false in
        (Ok (CartProxy.mk (Some r) (mkCart k f)),
         mkWorld (mkTable (<[k := f]> (rows (carts w))) k) (items w) (Some k)
                 (clock w))
    end.
Proof.
  unfold CartProxy.init, CartProxy.init_try, open_carts_for.
  destruct r as [[uid|]]; simpl.
  - unfold Cart_objects_get.
    by destruct (filter _ (Cart_all w)) as [|c [|c' l]].
  - unfold bind, session_get, Cart_objects_get.
    by destruct (filter _ (Cart_all w)) as [|c [|c' l]].
Qed.


(** The carts the lookup of [__init__] matches: the stored open carts of
    the user of the request, or for an anonymous request the stored open
    cart that the session names. *)
Lemma elem_of_open_carts_for (r : Request) (w : World) (c : Cart) :
  c ∈ open_carts_for r w
  ↔ rows (carts w) !! cart_id c = Some (cart_fields c)
    ∧ checked_out c = false
    ∧ match req_user r with
      | Some uid => user c = Some uid
      | None => session w = Some (cart_id c)
      end.
Proof.
  unfold open_carts_for.
  destruct (req_user r) as [uid|]; simpl;
    rewrite list_elem_of_filter, elem_of_Cart_all; split; intros; destruct_and!;
    split_and!; done.
Qed.

(** What [__init__] does when the lookup fails and a cart is supplied. *)
Lemma init_supplied_cases (request : option Request) (c0 : Cart) (w : World) :
  (∀ r, request = Some r → length (open_carts_for r w) ≠ 1%nat) →
  CartProxy.init request (Some c0) w
  = match rows (carts w) !! cart_id c0 with
    | Some f => (Ok (CartProxy.mk request (mkCart (cart_id c0) f)), w)
    | None => (Raise (DoesNotExist CartModel), w)
    end.
Proof.
  intros Hfail.
  assert (Hget : ∀ usr,
    (let* c := CartProxy.init_except request usr (Some c0) in
     ret (CartProxy.mk request c)) w
    = match rows (carts w) !! cart_id c0 with
      | Some f => (Ok (CartProxy.mk request (mkCart (cart_id c0) f)), w)
      | None => (Raise (DoesNotExist CartModel), w)
      end).
  { intros usr. unfold bind, CartProxy.init_except, Cart_objects_get.
    rewrite Cart_filter_pk. by destruct (rows (carts w) !! cart_id c0). }
  unfold CartProxy.init, CartProxy.init_try.
  destruct request as [r|]; [|apply Hget].
  specialize (Hfail r eq_refl). unfold open_carts_for in Hfail.
  destruct (negb (is_anonymous (req_user r))).
  - unfold Cart_objects_get.
    destruct (filter _ (Cart_all w)) as [|c [|c' l]]; simpl in Hfail |- *;
      [exact (Hget Unbound)|lia|exact (Hget Unbound)].
  - unfold bind, session_get, Cart_objects_get.
    destruct (filter _ (Cart_all w)) as [|c [|c' l]]; simpl in Hfail |- *;
      [exact (Hget Unbound)|lia|exact (Hget Unbound)].
Qed.

(** C3 (as stated) fails: with a supplied cart whose row is gone, the
    re-fetch in the handler raises Cart.DoesNotExist to the caller; and
    without a request and without a cart the handler raises
    UnboundLocalError. *)
Lemma init_can_raise :
  CartProxy.init (Some (mkRequest None)) (Some stale_cart)
                 (with_session world_two_carts None)
  = (Raise (DoesNotExist CartModel), with_session world_two_carts None)
  ∧ CartProxy.init None None world_two_carts
    = (Raise UnboundLocalError, world_two_carts).
Proof. split; vm_compute; reflexivity. Qed.

(** C3 (amended): the lookup of construction matches the stored open carts
    of the user of the request, or for an anonymous request the stored open
    cart that the session names.  When it matches exactly one cart, the
    proxy holds that cart and the store is unchanged.  Otherwise the lookup
    has failed (no request, no match or several matches), and: with a
    request and no supplied cart, a new open cart owned by the user of the
    request (None for an anonymous one) is stored under a new key, which the
    session then names, and the proxy holds it; with a supplied cart that
    still has its row, the proxy holds that row and the store is unchanged;
    with a supplied cart whose row is gone, Cart.DoesNotExist is raised to
    the caller; and with neither a request nor a cart, UnboundLocalError is
    raised. *)
Theorem init_resolves
    (request : option Request) (supplied : option Cart) (w : World) :
  (∀ r c, c ∈ open_carts_for r w
          ↔ rows (carts w) !! cart_id c = Some (cart_fields c)
            ∧ checked_out c = false
            ∧ match req_user r with
              | Some uid => user c = Some uid
              | None => session w = Some (cart_id c)
              end)
  ∧ (∀ r c, request = Some r → open_carts_for r w = [c] →
       CartProxy.init request supplied w = (Ok (CartProxy.mk request c), w))
  ∧ (∀ r, request = Some r → supplied = None →
       length (open_carts_for r w) ≠ 1%nat →
       let k := last_pk (carts w) + 1 in
       let f := mkCartFields (clock w) (req_user r) false in
       CartProxy.init request supplied w
       = (Ok (CartProxy.mk request (mkCart k f)),
          mkWorld (mkTable (<[k := f]> (rows (carts w))) k) (items w)
                  (Some k) (clock w))
       ∧ (Tbl.wf (carts w) → rows (carts w) !! k = None))
  ∧ (∀ c0 f, supplied = Some c0 →
       (∀ r, request = Some r → length (open_carts_for r w) ≠ 1%nat) →
       rows (carts w) !! cart_id c0 = Some f →
       CartProxy.init request supplied w
       = (Ok (CartProxy.mk request (mkCart (cart_id c0) f)), w))
  ∧ (∀ c0, supplied = Some c0 →
       (∀ r, request = Some r → length (open_carts_for r w) ≠ 1%nat) →
       rows (carts w) !! cart_id c0 = None →
       CartProxy.init request supplied w = (Raise (DoesNotExist CartModel), w))
  ∧ (request = None → supplied = None →
     CartProxy.init request supplied w = (Raise UnboundLocalError, w)).
Proof.
  split_and!.
  - intros r c. apply elem_of_open_carts_for.
  - intros r c -> Hone.
    assert (Htry : ∃ usr, CartProxy.init_try (Some r) w = (usr, Ok c, w)).
    { unfold CartProxy.init_try, open_carts_for in *.
      destruct (negb (is_anonymous (req_user r))).
      - unfold Cart_objects_get. rewrite Hone. by eexists.
      - unfold bind, session_get, Cart_objects_get. rewrite Hone. by eexists. }
    destruct Htry as [usr Htry]. unfold CartProxy.init. by rewrite Htry.
  - intros r -> -> Hfail k f. split.
    + rewrite init_request_cases.
      by destruct (open_carts_for r w) as [|c [|c' l]].
    + apply wf_fresh.
  - intros c0 f -> Hfail Hrow. by rewrite init_supplied_cases, Hrow.
  - intros c0 -> Hfail Hrow. by rewrite init_supplied_cases, Hrow.
  - by intros -> ->.
Qed.

Lemma world_two_carts_carts_wf : Tbl.wf (carts world_two_carts).
Proof. apply wf_list_to_map. repeat constructor; simpl; lia. Defined.

(** An anonymous request whose session names the open cart 1 finds it; an
    anonymous request whose session names no cart gets the new cart 3;
    without a request the supplied cart 2 is fetched again; and a supplied
    cart without a row makes construction raise. *)
Lemma init_resolves_witness :
  CartProxy.init anonymous_request None world_two_carts
  = (Ok proxy_cart_1, world_two_carts)
  ∧ (CartProxy.init anonymous_request None (with_session world_two_carts None)
     = (Ok (CartProxy.mk anonymous_request
              (mkCart 3 (mkCartFields 102 None false))),
        mkWorld (mkTable (<[3 := mkCartFields 102 None false]>
                            (rows (carts world_two_carts))) 3)
                (items world_two_carts) (Some 3) 102)
     ∧ rows (carts (with_session world_two_carts None)) !! 3 = None)
  ∧ CartProxy.init None (Some (CartProxy.cart proxy_cart_2)) world_two_carts
    = (Ok (CartProxy.mk None (mkCart 2 (mkCartFields 101 (Some 5) false))),
       world_two_carts)
  ∧ CartProxy.init anonymous_request (Some stale_cart)
                   (with_session world_two_carts None)
    = (Raise (DoesNotExist CartModel), with_session world_two_carts None).
Proof.
  split; [|split; [|split]].
  - apply (proj1 (proj2 (init_resolves anonymous_request None world_two_carts))
             (mkRequest None) (mkCart 1 (mkCartFields 100 None false)));
      [reflexivity|vm_compute; reflexivity].
  - destruct (proj1 (proj2 (proj2 (init_resolves anonymous_request None
                                     (with_session world_two_carts None))))
                (mkRequest None) eq_refl eq_refl) as [Hinit Hfresh].
    + vm_compute. discriminate.
    + split; [exact Hinit|]. apply Hfresh. exact world_two_carts_carts_wf.
  - apply (proj1 (proj2 (proj2 (proj2
             (init_resolves None (Some (CartProxy.cart proxy_cart_2))
                            world_two_carts))))
             (CartProxy.cart proxy_cart_2) (mkCartFields 101 (Some 5) false));
      [reflexivity|discriminate|vm_compute; reflexivity].
  - apply (proj1 (proj2 (proj2 (proj2 (proj2
             (init_resolves anonymous_request (Some stale_cart)
                            (with_session world_two_carts None))))))
             stale_cart); [reflexivity| |vm_compute; reflexivity].
    intros r [= <-]. vm_compute. discriminate.
Defined.

(** ** The checkout flag along sequences of operations *)



(** The item operations leave the cart table alone. *)
Lemma add_carts self p price q w :
  carts (CartProxy.add self p price q w).2 = carts w.
Proof.
  unfold CartProxy.add, try_except_else, Item_objects_get, except.
  destruct (get_one _ _) as [it|e]; simpl; [done|].
  by case_decide.
Qed.

Lemma update_item_carts self pk q w :
  carts (CartProxy.update_item self pk q w).2 = carts w.
Proof.
  unfold CartProxy.update_item, try_except, try_except_else, bind,
    Item_objects_get, except.
  destruct (get_one _ _) as [it|e]; simpl; [done|].
  by case_decide.
Qed.

Lemma update_carts self p q price w :
  carts (CartProxy.update self p q price w).2 = carts w.
Proof.
  unfold CartProxy.update, try_except, try_except_else, bind,
    Item_objects_get, except.
  destruct (get_one _ _) as [it|e]; simpl; [done|].
  by case_decide.
Qed.

Lemma for_each_Item_delete_carts (l : list Item) (w : World) :
  carts (for_each l Item_delete w).2 = carts w.
Proof.
  revert w. induction l as [|i l IH]; intros w; [done|].
  simpl. unfold bind. simpl. by rewrite IH.
Qed.














(** * Further properties *)

(** ** clear *)

Lemma for_each_Item_delete_result (l : list Item) (w : World) :
  ∃ t, for_each l Item_delete w = (Ok tt, with_items w t)
    ∧ last_pk t = last_pk (items w)
    ∧ ∀ k, rows t !! k
           = if decide (k ∈ item_id <$> l) then None else rows (items w) !! k.
Proof.
  revert w. induction l as [|i l IH]; intros w.
  - exists (items w). rewrite with_items_same. by split_and!.
  - destruct (IH (with_items w (Tbl.delete (item_id i) (items w))))
      as (t & Hrun & Hpk & Hrows).
    exists t. split_and!.
    + simpl. unfold bind. simpl. rewrite Hrun. reflexivity.
    + rewrite Hpk. reflexivity.
    + intros k. rewrite Hrows, fmap_cons.
      destruct (decide (k ∈ item_id <$> l)) as [Hin|Hnin].
      * rewrite decide_True by (by right). done.
      * destruct (decide (k = item_id i)) as [->|Hne].
        -- rewrite decide_True by left. simpl. apply lookup_delete_eq.
        -- rewrite decide_False by (by intros [?|?]%elem_of_cons).
           simpl. by rewrite lookup_delete_ne.
Qed.

Lemma elem_of_item_set (c : Cart) (w : World) (i : Item) :
  i ∈ item_set c w
  ↔ rows (items w) !! item_id i = Some (item_fields i)
    ∧ item_cart i = cart_id c.
Proof.
  unfold item_set. rewrite list_elem_of_filter, elem_of_Item_all. tauto.
Qed.

Lemma item_set_keys (c : Cart) (w : World) (k : Z) :
  k ∈ item_id <$> item_set c w
  ↔ ∃ f, rows (items w) !! k = Some f ∧ item_cart f = cart_id c.
Proof.
  rewrite list_elem_of_fmap. split.
  - intros (i & -> & Hi). apply elem_of_item_set in Hi. by eexists.
  - intros (f & Hk & Hc). exists (mkItem k f). split; [done|].
    by apply elem_of_item_set.
Qed.

(** X1: clear never raises; afterwards the proxy's cart has no items, the
    items of the other carts are the rows they were, the cart table and the
    session are untouched, and clearing again changes nothing. *)
Theorem clear_empties_cart (self : CartProxy.t) (w : World) :
  ∃ w', CartProxy.clear self w = (Ok tt, w')
    ∧ item_set (CartProxy.cart self) w' = []
    ∧ (∀ k f, rows (items w') !! k = Some f
              ↔ rows (items w) !! k = Some f
                ∧ item_cart f ≠ cart_id (CartProxy.cart self))
    ∧ carts w' = carts w ∧ session w' = session w
    ∧ CartProxy.clear self w' = (Ok tt, w').
Proof.
  destruct (for_each_Item_delete_result (item_set (CartProxy.cart self) w) w)
    as (t & Hrun & Hpk & Hrows).
  assert (Hleft : ∀ k f, rows t !! k = Some f
            ↔ rows (items w) !! k = Some f
              ∧ item_cart f ≠ cart_id (CartProxy.cart self)).
  { intros k f. rewrite Hrows. case_decide as Hin.
    - apply item_set_keys in Hin as (f' & Hk & Hc).
      split; [done|]. intros [Hk' Hne]. congruence.
    - split; [|tauto]. intros Hk. split; [done|]. intros Hc.
      apply Hin, item_set_keys. by exists f. }
  assert (Hempty : item_set (CartProxy.cart self) (with_items w t) = []).
  { apply filter_none. intros i Hi Hc. apply elem_of_Item_all in Hi.
    simpl in Hi. apply Hleft in Hi as [_ Hne]. done. }
  exists (with_items w t). split_and!; try done.
  unfold CartProxy.clear. rewrite Hempty. reflexivity.
Qed.

(** ** get_item and get_cart *)

(** The item [add] returns is stored as returned. *)
Lemma add_result_stored (self : CartProxy.t) (p : ProductRef)
    (price : Decimal) (q : Z) (w w1 : World) (it : Item) :
  CartProxy.add self p price q w = (Ok it, w1) →
  rows (items w1) !! item_id it = Some (item_fields it).
Proof.
  unfold CartProxy.add, try_except_else, Item_objects_get, except.
  destruct (get_one _ _) as [i|e]; simpl.
  - intros [= <- <-]. simpl. apply lookup_insert_eq.
  - case_decide; [|discriminate].
    intros [= <- <-]. simpl. apply lookup_insert_eq.
Qed.

(** X3: get_item looks an item up by its key, whatever cart it belongs to:
    it returns the stored row, raises ItemDoesNotExist when the key has no
    row, and leaves the world as it is; the item an add has returned is
    found again under its id. *)
Theorem get_item_by_key (self : CartProxy.t) (item : Z) (w : World) :
  (∀ f, rows (items w) !! item = Some f →
        CartProxy.get_item self item w = (Ok (mkItem item f), w))
  ∧ (rows (items w) !! item = None →
     CartProxy.get_item self item w = (Raise ItemDoesNotExist, w))
  ∧ (∀ (other : CartProxy.t) (p : ProductRef) (price : Decimal) (q : Z)
       (w0 : World) (it : Item),
       CartProxy.add other p price q w0 = (Ok it, w) →
       item = item_id it →
       CartProxy.get_item self item w = (Ok it, w)).
Proof.
  assert (Hsome : ∀ f, rows (items w) !! item = Some f →
            CartProxy.get_item self item w = (Ok (mkItem item f), w)).
  { intros f Hf. apply try_except_Ok. unfold Item_objects_get.
    by rewrite Item_filter_pk, Hf. }
  split_and!; [done| |].
  - intros Hnone. unfold CartProxy.get_item.
    erewrite try_except_caught; [reflexivity|].
    unfold Item_objects_get. by rewrite Item_filter_pk, Hnone.
  - intros other p price q w0 it Hadd ->.
    apply add_result_stored in Hadd. rewrite (Hsome _ Hadd). by destruct it.
Qed.

Lemma get_item_by_key_witness :
  CartProxy.get_item proxy_cart_1 3 world_two_carts
  = (Ok (mkItem 3 (mkItemFields 2 product_A price_10_00 1)), world_two_carts).
Proof.
  apply (proj1 (get_item_by_key proxy_cart_1 3 world_two_carts)).
  vm_compute. reflexivity.
Defined.

(** X4: get_cart returns None when the session names no cart (no id, or the
    id 0), returns the cart the session names when it is stored and open, and
    raises Cart.DoesNotExist when that cart is checked out or has no row; it
    never creates a cart and leaves the world as it is. *)
Theorem get_cart_of_session (r : Request) (w : World) :
  (CartProxy.truthy (session w) = false →
   CartProxy.get_cart (Some r) w = (Ok None, w))
  ∧ (∀ k f, session w = Some k → k ≠ 0 →
            rows (carts w) !! k = Some f → checked_out f = false →
            CartProxy.get_cart (Some r) w = (Ok (Some (mkCart k f)), w))
  ∧ (∀ k, session w = Some k → k ≠ 0 →
          (∀ f, rows (carts w) !! k = Some f → checked_out f = true) →
          CartProxy.get_cart (Some r) w = (Raise (DoesNotExist CartModel), w)).
Proof.
  assert (Hrun : ∀ k, session w = Some k → k ≠ 0 →
    CartProxy.get_cart (Some r) w
    = match get_one CartModel
              (filter (λ c : Cart, Some (cart_id c) = Some k
                                   ∧ checked_out c = false) (Cart_all w)) with
      | Ok c => (Ok (Some c), w)
      | Raise e => (Raise e, w)
      end).
  { intros k Hs Hk. unfold CartProxy.get_cart, bind, session_get. simpl.
    rewrite Hs. simpl. rewrite (proj2 (Z.eqb_neq k 0) Hk). simpl.
    unfold Cart_objects_get. by destruct (get_one _ _). }
  split_and!.
  - intros Hf. unfold CartProxy.get_cart, bind, session_get. simpl.
    by rewrite Hf.
  - intros k f Hs Hk Hrow Hopen.
    by rewrite (Hrun k Hs Hk), Cart_filter_session, Hrow, Hopen.
  - intros k Hs Hk Hclosed. rewrite (Hrun k Hs Hk), Cart_filter_session.
    destruct (rows (carts w) !! k) as [f|] eqn:Hrow; [|done].
    by rewrite (Hclosed f eq_refl).
Qed.

Lemma get_cart_of_session_witness :
  CartProxy.get_cart (Some (mkRequest None)) world_two_carts
  = (Ok (Some (mkCart 1 (mkCartFields 100 None false))), world_two_carts).
Proof.
  apply (proj1 (proj2 (get_cart_of_session (mkRequest None) world_two_carts))
           1 (mkCartFields 100 None false)).
  - reflexivity.
  - discriminate.
  - vm_compute. reflexivity.
  - reflexivity.
Defined.

(** ** add, composed with remove_item, count and total *)

(** The objects of a table in which one row was replaced. *)
Lemma Item_all_update (w w' : World) (k : Z) (f f' : ItemFields) :
  rows (items w) !! k = Some f →
  rows (items w') = <[k := f']> (rows (items w)) →
  ∃ rest, Item_all w ≡ₚ mkItem k f :: rest
        ∧ Item_all w' ≡ₚ mkItem k f' :: rest.
Proof.
  intros Hk Hrows.
  exists ((λ kv, mkItem kv.1 kv.2) <$> map_to_list (delete k (rows (items w)))).
  unfold Item_all. split.
  - by rewrite <- (map_to_list_delete _ k f Hk).
  - rewrite Hrows, <- insert_delete_eq.
    by rewrite map_to_list_insert by apply lookup_delete_eq.
Qed.

Lemma item_set_update (c : Cart) (w w' : World) (k : Z) (f f' : ItemFields) :
  rows (items w) !! k = Some f →
  rows (items w') = <[k := f']> (rows (items w)) →
  item_cart f = cart_id c → item_cart f' = cart_id c →
  ∃ rest, item_set c w ≡ₚ mkItem k f :: rest
        ∧ item_set c w' ≡ₚ mkItem k f' :: rest.
Proof.
  intros Hk Hrows Hc Hc'.
  destruct (Item_all_update w w' k f f' Hk Hrows) as (rest & H1 & H2).
  exists (filter (λ i : Item, item_cart i = cart_id c) rest).
  unfold item_set. rewrite H1, H2.
  by rewrite !filter_cons_True.
Qed.

(** What [add] does when the cart has at most one item for the product. *)
Lemma add_cases (self : CartProxy.t) (p : ProductRef) (price : Decimal)
    (q : Z) (w : World) :
  (length (items_for (cart_id (CartProxy.cart self)) p w) ≤ 1)%nat →
  (items_for (cart_id (CartProxy.cart self)) p w = []
   ∧ CartProxy.add self p price q w
     = (Ok (mkItem (last_pk (items w) + 1)
                   (mkItemFields (cart_id (CartProxy.cart self)) p price q)),
        with_items w
          (Tbl.insert (mkItemFields (cart_id (CartProxy.cart self)) p price q)
                      (items w)).2))
  ∨ (∃ it0, items_for (cart_id (CartProxy.cart self)) p w = [it0]
       ∧ CartProxy.add self p price q w
         = (Ok (set_quantity it0 (quantity it0 + q)),
            with_items w
              (Tbl.save (item_id it0)
                 (item_fields (set_quantity it0 (quantity it0 + q)))
                 (items w)))).
Proof.
  intros Hle.
  destruct (items_for _ p w) as [|it0 [|it1 l]] eqn:Hfor; simpl in Hle; [| |lia].
  - left. split; [done|]. by apply add_new.
  - right. exists it0. split; [done|].
    unfold CartProxy.add, try_except_else, Item_objects_get.
    rewrite add_lookup, Hfor. reflexivity.
Qed.

Lemma items_for_stored (cid : Z) (p : ProductRef) (w : World) (it : Item) :
  it ∈ items_for cid p w →
  rows (items w) !! item_id it = Some (item_fields it)
  ∧ item_cart it = cid ∧ product it = p.
Proof.
  unfold items_for. rewrite list_elem_of_filter, elem_of_Item_all. tauto.
Qed.

(** X5: adding a product that is new to the cart and then removing the
    returned item by its id gives back the item rows, the carts and the
    session as they were. *)
Theorem add_then_remove_item
    (self : CartProxy.t) (p : ProductRef) (price : Decimal) (q : Z)
    (w : World) :
  Tbl.wf (items w) →
  items_for (cart_id (CartProxy.cart self)) p w = [] →
  ∃ (it : Item) (w1 w2 : World),
    CartProxy.add self p price q w = (Ok it, w1)
    ∧ CartProxy.remove_item self (item_id it) w1 = (Ok tt, w2)
    ∧ rows (items w2) = rows (items w)
    ∧ carts w2 = carts w ∧ session w2 = session w.
Proof.
  intros Hwf Hnone. pose proof (wf_fresh _ Hwf) as Hfresh.
  do 3 eexists. split; [by apply add_new|].
  split; [reflexivity|]. split; [|done].
  simpl. apply map_eq. intros k. apply option_eq. intros f.
  rewrite map_lookup_filter_Some. simpl.
  destruct (decide (k = last_pk (items w) + 1)) as [->|Hne].
  - rewrite lookup_insert_eq, Hfresh. split; [|done].
    intros [[= <-] Hnot]. destruct Hnot. done.
  - rewrite lookup_insert_ne by done. split; [tauto|].
    intros Hk. split; [done|]. tauto.
Qed.

Lemma add_then_remove_item_witness :
  ∃ (it : Item) (w1 w2 : World),
    CartProxy.add proxy_cart_2 product_B price_1_25 3 world_two_carts
    = (Ok it, w1)
    ∧ CartProxy.remove_item proxy_cart_2 (item_id it) w1 = (Ok tt, w2)
    ∧ rows (items w2) = rows (items world_two_carts)
    ∧ carts w2 = carts world_two_carts ∧ session w2 = session world_two_carts.
Proof.
  apply (add_then_remove_item proxy_cart_2 product_B price_1_25 3
           world_two_carts).
  - exact world_two_carts_wf.
  - vm_compute. reflexivity.
Defined.

Lemma Zsum_Permutation (l l' : list Z) :
  l ≡ₚ l' → foldr Z.add 0 l = foldr Z.add 0 l'.
Proof. induction 1; simpl; lia. Qed.

Lemma Qsum_Permutation (l l' : list Q) :
  l ≡ₚ l' → (Qsum l == Qsum l')%Q.
Proof.
  induction 1 as [|x l l' _ IH|x y l|l1 l2 l3 _ IH1 _ IH2]; unfold Qsum in *; simpl.
  - reflexivity.
  - by rewrite IH.
  - ring.
  - by rewrite IH1.
Qed.

Lemma count_as_sum (self : CartProxy.t) (w : World) :
  CartProxy.count self w
  = Int (foldr Z.add 0
           ((λ i : Item, quantity i) <$> item_set (CartProxy.cart self) w)).
Proof.
  unfold CartProxy.count, py_sum.
  change (λ i : Item, Int (quantity i)) with (Int ∘ (λ i : Item, quantity i)).
  by rewrite list_fmap_compose, foldl_py_add_ints.
Qed.

(** Amounts within the precision stay so when items are reordered, left
    out, or merged into one item of the same unit price. *)
Lemma within_precision_Permutation (emin : Z) (l l' : list Item) :
  l ≡ₚ l' → within_precision emin l → within_precision emin l'.
Proof.
  intros Hp (Hemin & Hall & Hlt). split; [done|split].
  - by rewrite <- Hp.
  - by rewrite <- (Zsum_Permutation _ _ (fmap_Permutation _ _ _ Hp)).
Qed.

Lemma within_precision_cons (emin : Z) (x y : Item) (l : list Item) :
  emin ≤ exponent (unit_price y) →
  item_magnitude emin y ≤ item_magnitude emin x →
  within_precision emin (x :: l) → within_precision emin (y :: l).
Proof.
  intros He Hm (Hemin & Hall & Hlt). split; [done|split].
  - apply Forall_cons in Hall as [_ Hall]. by apply Forall_cons.
  - revert Hlt. rewrite !fmap_cons.
    change (foldr Z.add 0 (?a :: ?xs)) with (a + foldr Z.add 0 xs). lia.
Qed.

Lemma within_precision_tail (emin : Z) (x : Item) (l : list Item) :
  within_precision emin (x :: l) → within_precision emin l.
Proof.
  intros (Hemin & Hall & Hlt). split; [done|split].
  - by apply Forall_cons in Hall as [_ Hall].
  - revert Hlt. rewrite fmap_cons.
    change (foldr Z.add 0 (?a :: ?xs)) with (a + foldr Z.add 0 xs).
    pose proof (item_magnitude_nonneg emin x). lia.
Qed.

Lemma within_precision_merge (emin : Z) (x y z : Item) (l : list Item) :
  unit_price x = unit_price y → unit_price z = unit_price y →
  quantity z = quantity y + quantity x →
  within_precision emin (x :: y :: l) → within_precision emin (z :: l).
Proof.
  intros Hx Hz Hq (Hemin & Hall & Hlt). split; [done|split].
  - apply Forall_cons in Hall as [_ Hall].
    apply Forall_cons in Hall as [Hy Hall].
    apply Forall_cons. split; [by rewrite Hz|done].
  - revert Hlt. rewrite !fmap_cons.
    change (foldr Z.add 0 (?a :: ?xs)) with (a + foldr Z.add 0 xs).
    change (foldr Z.add 0 (?a :: ?xs)) with (a + foldr Z.add 0 xs).
    unfold item_magnitude. rewrite Hx, Hz, Hq.
    pose proof (Z.pow_nonneg 10 (exponent (unit_price y) - emin) ltac:(lia)).
    pose proof (Z.abs_triangle (quantity y * coefficient (unit_price y))
                               (quantity x * coefficient (unit_price y))).
    replace ((quantity y + quantity x) * coefficient (unit_price y))
      with (quantity y * coefficient (unit_price y)
            + quantity x * coefficient (unit_price y)) by lia.
    nia.
Qed.

(** X6: when the cart has at most one item for the product, add returns
    and raises count() by the quantity given; unique_count() grows by one
    when the product is new to the cart and stays the same otherwise. *)
Theorem add_raises_count
    (self : CartProxy.t) (p : ProductRef) (price : Decimal) (q : Z)
    (w : World) :
  Tbl.wf (items w) →
  (length (items_for (cart_id (CartProxy.cart self)) p w) ≤ 1)%nat →
  ∃ (it : Item) (w' : World) (n : Z),
    CartProxy.add self p price q w = (Ok it, w')
    ∧ CartProxy.count self w = Int n
    ∧ CartProxy.count self w' = Int (n + q)
    ∧ CartProxy.unique_count self w'
      = match items_for (cart_id (CartProxy.cart self)) p w with
        | [] => S (CartProxy.unique_count self w)
        | _ => CartProxy.unique_count self w
        end.
Proof.
  intros Hwf Hle. pose proof (wf_fresh _ Hwf) as Hfresh.
  destruct (add_cases self p price q w Hle)
    as [[Hnone Hadd]|(it0 & Hone & Hadd)].
  - do 3 eexists. split; [exact Hadd|]. split; [apply count_as_sum|].
    rewrite Hnone.
    match goal with |- context [CartProxy.count self ?w1] =>
      assert (Hperm : item_set (CartProxy.cart self) w1
                ≡ₚ mkItem (last_pk (items w) + 1)
                          (mkItemFields (cart_id (CartProxy.cart self)) p price q) :: item_set (CartProxy.cart self) w)
        by (by apply (item_set_insert w w1)) end.
    split.
    + rewrite count_as_sum.  f_equal.
      rewrite (Zsum_Permutation _ _ (fmap_Permutation _ _ _ Hperm)).
      rewrite fmap_cons.
      change (foldr Z.add 0 (?x :: ?xs)) with (x + foldr Z.add 0 xs).
      cbn [quantity item_fields]. lia.
    + unfold CartProxy.unique_count.  by rewrite Hperm.
  - assert (Hin : it0 ∈ items_for (cart_id (CartProxy.cart self)) p w) by (rewrite Hone; left).
    apply items_for_stored in Hin as (Hst & Hc & _).
    do 3 eexists. split; [exact Hadd|]. split; [apply count_as_sum|].
    rewrite Hone.
    match goal with |- context [CartProxy.count self ?w1] =>
      destruct (item_set_update (CartProxy.cart self) w w1 (item_id it0) (item_fields it0)
                  (item_fields (set_quantity it0 (quantity it0 + q))))
        as (rest & H1 & H2); [done|done|done|done|] end.
    split.
    + rewrite count_as_sum.  f_equal.
      rewrite (Zsum_Permutation _ _ (fmap_Permutation _ _ _ H1)).
      rewrite (Zsum_Permutation _ _ (fmap_Permutation _ _ _ H2)).
      rewrite !fmap_cons.
      change (foldr Z.add 0 (?x :: ?xs)) with (x + foldr Z.add 0 xs).
      cbn [quantity item_fields set_quantity]. lia.
    + unfold CartProxy.unique_count.  by rewrite H1, H2.
Qed.

Lemma add_raises_count_witness :
  ∃ (it : Item) (w' : World) (n : Z),
    CartProxy.add proxy_cart_1 product_A price_10_00 3 world_two_carts
    = (Ok it, w')
    ∧ CartProxy.count proxy_cart_1 world_two_carts = Int n
    ∧ CartProxy.count proxy_cart_1 w' = Int (n + 3)
    ∧ CartProxy.unique_count proxy_cart_1 w'
      = match items_for (cart_id (CartProxy.cart proxy_cart_1)) product_A
                world_two_carts with
        | [] => S (CartProxy.unique_count proxy_cart_1 world_two_carts)
        | _ => CartProxy.unique_count proxy_cart_1 world_two_carts
        end.
Proof.
  apply (add_raises_count proxy_cart_1 product_A price_10_00 3 world_two_carts).
  - exact world_two_carts_wf.
  - vm_compute. lia.
Defined.

(** X7: when the cart has at most one item for the product, and the items
    of the cart together with the added units at the unit price that applies
    are within the precision, add raises the value of total() by the
    quantity given times the unit price of the item it returns: the price
    given when the product is new to the cart, the price of the item already
    there otherwise. *)
Theorem add_raises_total
    (self : CartProxy.t) (p : ProductRef) (price : Decimal) (q : Z)
    (w : World) (emin : Z) :
  Tbl.wf (items w) →
  (length (items_for (cart_id (CartProxy.cart self)) p w) ≤ 1)%nat →
  within_precision emin
    (mkItem 0 (mkItemFields (cart_id (CartProxy.cart self)) p
                 match items_for (cart_id (CartProxy.cart self)) p w with
                 | it0 :: _ => unit_price it0
                 | [] => price
                 end q)
     :: item_set (CartProxy.cart self) w) →
  ∃ (it : Item) (w' : World),
    CartProxy.add self p price q w = (Ok it, w')
    ∧ (number_value (CartProxy.total self w')
       == number_value (CartProxy.total self w)
          + Dec.value (unit_price it) * inject_Z q)%Q
    ∧ unit_price it
      = match items_for (cart_id (CartProxy.cart self)) p w with
        | it0 :: _ => unit_price it0
        | [] => price
        end.
Proof.
  intros Hwf Hle Hfit. pose proof (wf_fresh _ Hwf) as Hfresh.
  pose proof (within_precision_tail _ _ _ Hfit) as Hfit0.
  destruct (add_cases self p price q w Hle)
    as [[Hnone Hadd]|(it0 & Hone & Hadd)].
  - do 2 eexists. split; [exact Hadd|]. rewrite Hnone in Hfit |- *.
    split; [|done].
    match goal with |- context [CartProxy.total self ?w1] =>
      assert (Hperm : item_set (CartProxy.cart self) w1
                ≡ₚ mkItem (last_pk (items w) + 1)
                          (mkItemFields (cart_id (CartProxy.cart self)) p
                                        price q)
                   :: item_set (CartProxy.cart self) w)
        by (by apply (item_set_insert w w1));
      assert (Hfit1 : within_precision emin (item_set (CartProxy.cart self) w1))
    end.
    { apply (within_precision_Permutation _ _ _ (Permutation_sym Hperm)).
      pose proof Hfit as (_ & [He _]%Forall_cons & _).
      eapply within_precision_cons; [| |exact Hfit]; [exact He|apply Z.le_refl]. }
    rewrite (total_value_exact emin _ _ Hfit1),
      (total_value_exact emin _ _ Hfit0).
    rewrite (Qsum_Permutation _ _ (fmap_Permutation _ _ _ Hperm)).
    rewrite fmap_cons. change (Qsum (?x :: ?xs)) with (x + Qsum xs)%Q.
    cbn [unit_price quantity item_fields]. apply Qplus_comm.
  - assert (Hin : it0 ∈ items_for (cart_id (CartProxy.cart self)) p w)
      by (rewrite Hone; left).
    apply items_for_stored in Hin as (Hst & Hc & _).
    do 2 eexists. split; [exact Hadd|]. rewrite Hone in Hfit |- *.
    split; [|done].
    match goal with |- context [CartProxy.total self ?w1] =>
      destruct (item_set_update (CartProxy.cart self) w w1 (item_id it0)
                  (item_fields it0)
                  (item_fields (set_quantity it0 (quantity it0 + q))))
        as (rest & H1 & H2); [done|done|done|done|];
      assert (Hfit1 : within_precision emin (item_set (CartProxy.cart self) w1))
    end.
    { apply (within_precision_Permutation _ _ _ (Permutation_sym H2)).
      apply (within_precision_merge emin
               (mkItem 0 (mkItemFields (cart_id (CartProxy.cart self)) p
                                       (unit_price it0) q))
               (mkItem (item_id it0) (item_fields it0))); [done|done|done|].
      apply (within_precision_Permutation emin
               (mkItem 0 (mkItemFields (cart_id (CartProxy.cart self)) p
                                       (unit_price it0) q)
                :: item_set (CartProxy.cart self) w)); [|done].
      by rewrite H1. }
    rewrite (total_value_exact emin _ _ Hfit1),
      (total_value_exact emin _ _ Hfit0).
    rewrite (Qsum_Permutation _ _ (fmap_Permutation _ _ _ H1)).
    rewrite (Qsum_Permutation _ _ (fmap_Permutation _ _ _ H2)).
    rewrite !fmap_cons. change (Qsum (?x :: ?xs)) with (x + Qsum xs)%Q.
    cbn [unit_price quantity item_fields set_quantity].
    rewrite inject_Z_plus. ring.
Qed.

Lemma add_raises_total_witness :
  ∃ (it : Item) (w' : World),
    CartProxy.add proxy_cart_1 product_A price_10_00 3 world_two_carts
    = (Ok it, w')
    ∧ (number_value (CartProxy.total proxy_cart_1 w')
       == number_value (CartProxy.total proxy_cart_1 world_two_carts)
          + Dec.value (unit_price it) * inject_Z 3)%Q
    ∧ unit_price it
      = match items_for (cart_id (CartProxy.cart proxy_cart_1)) product_A
                world_two_carts with
        | it0 :: _ => unit_price it0
        | [] => price_10_00
        end.
Proof.
  apply (add_raises_total proxy_cart_1 product_A price_10_00 3 world_two_carts
           (-2)).
  - exact world_two_carts_wf.
  - vm_compute. lia.
  - assert (Hset : item_set (CartProxy.cart proxy_cart_1) world_two_carts
                   = [mkItem 2 (mkItemFields 1 product_B price_1_25 4);
                      mkItem 1 (mkItemFields 1 product_A price_3_50 2)])
      by (vm_compute; reflexivity).
    assert (Hfor : items_for (cart_id (CartProxy.cart proxy_cart_1)) product_A
                     world_two_carts
                   = [mkItem 1 (mkItemFields 1 product_A price_3_50 2)])
      by (vm_compute; reflexivity).
    rewrite Hset, Hfor. split_and!.
    + unfold Dec.etiny. lia.
    + lia.
    + repeat constructor; simpl; lia.
    + vm_compute. reflexivity.
Defined.

(** ** One item per product and cart, along sequences of operations *)

Lemma one_item_per_product_rows (w : World) :
  one_item_per_product w ↔ rows_unique (rows (items w)).
Proof.
  split.
  - intros Hone k1 k2 f1 f2 H1 H2 Hc Hp.
    specialize (Hone (item_cart f1) (product f1)).
    assert (Hin1 : mkItem k1 f1 ∈ items_for (item_cart f1) (product f1) w).
    { apply list_elem_of_filter. split; [done|]. by apply elem_of_Item_all. }
    assert (Hin2 : mkItem k2 f2 ∈ items_for (item_cart f1) (product f1) w).
    { apply list_elem_of_filter. split; [done|]. by apply elem_of_Item_all. }
    destruct (items_for _ _ w) as [|a [|b l]]; simpl in Hone; [| |lia].
    + by apply elem_of_nil in Hin1.
    + apply list_elem_of_singleton in Hin1, Hin2. congruence.
  - intros Huniq cid p.
    assert (Hnd : NoDup (items_for cid p w))
      by apply NoDup_filter, NoDup_Item_all.
    assert (Hst : ∀ i, i ∈ items_for cid p w →
              rows (items w) !! item_id i = Some (item_fields i)
              ∧ item_cart i = cid ∧ product i = p)
      by (intros i; apply items_for_stored).
    destruct (items_for cid p w) as [|a [|b l]]; simpl; [lia|lia|].
    exfalso.
    destruct (Hst a) as (Ha & Hca & Hpa); [left|].
    destruct (Hst b) as (Hb & Hcb & Hpb); [right; left|].
    assert (Hk : item_id a = item_id b)
      by (apply (Huniq _ _ _ _ Ha Hb); congruence).
    assert (a = b).
    { destruct a as [ka fa], b as [kb fb]; simpl in *. congruence. }
    subst b. apply NoDup_cons in Hnd as [Hnin _]. apply Hnin. left.
Qed.

Lemma items_step_invariant (t t' : Table ItemFields) :
  items_step t t' →
  Tbl.wf t ∧ rows_unique (rows t) → Tbl.wf t' ∧ rows_unique (rows t').
Proof.
  intros Hstep [Hwf Huniq].
  destruct Hstep as [t f Hnew | t k f q Hk | t t' Hsub Hpk].
  - pose proof (wf_fresh _ Hwf) as Hfresh.
    split; [by apply wf_insert|]. simpl.
    intros k1 k2 f1 f2 H1 H2 Hc Hp.
    apply lookup_insert_Some in H1 as [[<- <-]|[Hne1 H1]];
      apply lookup_insert_Some in H2 as [[<- <-]|[Hne2 H2]]; try done.
    + exfalso. by apply (Hnew k2 f2 H2).
    + exfalso. by apply (Hnew k1 f1 H1).
    + by apply (Huniq k1 k2 f1 f2).
  - pose proof (Hwf k (mk_is_Some _ _ Hk)) as Hle. split.
    + intros k' [x Hx]; simpl in *.
      apply lookup_insert_Some in Hx as [[<- _]|[_ Hx]]; [lia|].
      pose proof (Hwf k' (mk_is_Some _ _ Hx)). lia.
    + simpl. intros k1 k2 f1 f2 H1 H2 Hc Hp.
      apply lookup_insert_Some in H1 as [[<- <-]|[Hne1 H1]];
        apply lookup_insert_Some in H2 as [[<- <-]|[Hne2 H2]];
        simpl in *; try done.
      * by apply (Huniq k k2 f f2).
      * by apply (Huniq k1 k f1 f).
      * by apply (Huniq k1 k2 f1 f2).
  - split.
    + intros k [x Hx]. rewrite Hpk.
      apply (Hwf k). exists x. by apply (lookup_weaken _ _ _ _ Hx Hsub).
    + intros k1 k2 f1 f2 H1 H2.
      apply (Huniq k1 k2 f1 f2); by eapply lookup_weaken.
Qed.

Lemma items_steps_invariant (t t' : Table ItemFields) :
  rtc items_step t t' →
  Tbl.wf t ∧ rows_unique (rows t) → Tbl.wf t' ∧ rows_unique (rows t').
Proof.
  induction 1 as [|t1 t2 t3 Hstep _ IH]; [done|].
  intros Hinv. by apply IH, (items_step_invariant t1).
Qed.

Lemma world_call_self {A} (m : M (A * CartProxy.t)) (s : Sys) :
  world (call_self m s) = (m (world s)).2.
Proof. unfold call_self. by destruct (m (world s)) as [[[a p]|e] w']. Qed.

Lemma new_items request usr w :
  items (CartProxy.new request usr w).2 = items w.
Proof. by destruct request. Qed.

Lemma init_items request supplied w :
  items (CartProxy.init request supplied w).2 = items w.
Proof.
  unfold CartProxy.init.
  destruct (init_try_outcome request w) as (usr & res & Htry & _ & _).
  rewrite Htry. destruct res as [c|e]; [done|].
  unfold bind, CartProxy.init_except.
  destruct supplied as [c0|].
  - unfold Cart_objects_get. by destruct (get_one _ _).
  - destruct usr as [|u]; [done|].
    pose proof (new_items request u w) as Hnew.
    by destruct (CartProxy.new request u w) as [[c|e'] w'].
Qed.

Lemma add_items self p price q w :
  rtc items_step (items w) (items (CartProxy.add self p price q w).2).
Proof.
  unfold CartProxy.add, try_except_else, Item_objects_get.
  rewrite add_lookup.
  destruct (items_for _ p w) as [|it0 [|it1 l]] eqn:Hfor; simpl.
  - apply rtc_once, (is_insert (items w)). simpl.
    intros k f0 Hk [Hc Hp].
    apply (filter_nil_not_elem_of _ _ (mkItem k f0) Hfor); [done|].
    by apply elem_of_Item_all.
  - assert (Hin : it0 ∈ items_for (cart_id (CartProxy.cart self)) p w)
      by (rewrite Hfor; left).
    apply items_for_stored in Hin as (Hst & _).
    apply rtc_once. by apply (is_set_quantity (items w) (item_id it0) it0).
  - apply rtc_refl.
Qed.

Lemma set_quantity_items (P : Item → Prop) `{∀ i, Decision (P i)}
    (q : Z) (handler : exn → option (M unit)) (w : World) :
  (∀ e h, handler e = Some h → items (h w).2 = items w) →
  rtc items_step (items w)
    (items (try_except
              (let* item := Item_objects_get P in
               Item_save (set_quantity item q)) handler w).2).
Proof.
  intros Hh. unfold try_except, try_except_else, bind, Item_objects_get.
  destruct (get_one _ _) as [it|e] eqn:Hget; simpl.
  - destruct (filter P (Item_all w)) as [|i [|i' l]] eqn:Hf;
      simpl in Hget; simplify_eq.
    apply filter_singleton_inv in Hf as (Hin & _ & _).
    apply elem_of_Item_all in Hin.
    apply rtc_once. by apply (is_set_quantity (items w) (item_id it) it).
  - destruct (handler e) as [h|] eqn:He; simpl; [|apply rtc_refl].
    rewrite (Hh e h He). apply rtc_refl.
Qed.

Lemma except_raise_items {A} (e0 e1 : exn) (w : World) :
  ∀ e (h : M A), except e0 (raise e1) e = Some h → items (h w).2 = items w.
Proof. intros e h. unfold except. case_decide; by intros [= <-]. Qed.

Lemma delete_old_cart_items self usr w :
  rtc items_step (items w) (items (CartProxy.delete_old_cart self usr w).2).
Proof.
  rewrite delete_old_cart_cases.
  destruct (carts_of usr w) as [|c [|c' l]]; simpl; try apply rtc_refl.
  apply rtc_once, is_remove; [|done]. simpl. apply map_filter_subseteq.
Qed.

Lemma replace_items self cid usr w :
  items (CartProxy.replace self cid usr w).2
  = items (CartProxy.delete_old_cart self usr w).2.
Proof.
  unfold CartProxy.replace, try_except, try_except_else. unfold bind at 1.
  destruct (CartProxy.delete_old_cart self usr w) as [[[]|e] w1]; simpl.
  - unfold bind, Cart_objects_get.
    destruct (get_one _ _) as [c|e]; simpl; [done|].
    unfold except. by case_decide.
  - unfold except. by case_decide.
Qed.

Lemma clear_items self w :
  rtc items_step (items w) (items (CartProxy.clear self w).2).
Proof.
  unfold CartProxy.clear.
  destruct (for_each_Item_delete_result (item_set (CartProxy.cart self) w) w)
    as (t & -> & Hpk & Hrows).
  apply rtc_once, is_remove; [|done]. simpl.
  apply map_subseteq_spec. intros k f. rewrite Hrows. by case_decide.
Qed.

Lemma get_last_cart_items self usr w :
  items (CartProxy.get_last_cart self usr w).2 = items w.
Proof.
  unfold CartProxy.get_last_cart, try_except_else, Cart_objects_get.
  destruct (get_one _ _) as [c|e]; simpl; [done|].
  unfold except. by case_decide.
Qed.

Lemma step_items (op : Op) (s : Sys) :
  rtc items_step (items (world s)) (items (world (step op s))).
Proof.
  destruct op; simpl.
  - rewrite world_call_self. unfold bind.
    pose proof (init_items request supplied (world s)) as Hi.
    destruct (CartProxy.init request supplied (world s)) as [[p|e] w'];
      simpl in *; rewrite Hi; apply rtc_refl.
  - destruct (proxy s); [|apply rtc_refl]. simpl. rewrite new_items.
    apply rtc_refl.
  - destruct (proxy s); [|apply rtc_refl]. apply add_items.
  - destruct (proxy s); [|apply rtc_refl]. simpl.
    apply rtc_once, is_remove; [|done]. simpl. apply map_filter_subseteq.
  - destruct (proxy s); [|apply rtc_refl].
    apply set_quantity_items, except_raise_items.
  - destruct (proxy s); [|apply rtc_refl].
    apply set_quantity_items, except_raise_items.
  - destruct (proxy s); [|apply rtc_refl]. apply delete_old_cart_items.
  - destruct (proxy s); [|apply rtc_refl]. simpl. rewrite replace_items.
    apply delete_old_cart_items.
  - destruct (proxy s); [|apply rtc_refl]. apply clear_items.
  - destruct (proxy s); [|apply rtc_refl]. rewrite world_call_self.
    rewrite get_last_cart_items. apply rtc_refl.
  - destruct (proxy s); [|apply rtc_refl]. rewrite world_call_self.
    apply rtc_refl.
Qed.

Lemma run_items (ops : list Op) (s : Sys) :
  rtc items_step (items (world s)) (items (world (run ops s))).
Proof.
  revert s. induction ops as [|op ops IH]; intros s; [apply rtc_refl|].
  simpl. etrans; [apply step_items|apply IH].
Qed.

(** X8: along every sequence of operations the invariant of one item per
    product and cart is kept: when no cart holds two items for one product
    (and the keys of the item table do not exceed the last key handed out),
    the same holds after any sequence of constructions and method calls. *)
Theorem item_uniqueness_is_kept (ops : list Op) (s : Sys) :
  Tbl.wf (items (world s)) →
  one_item_per_product (world s) →
  Tbl.wf (items (world (run ops s)))
  ∧ one_item_per_product (world (run ops s)).
Proof.
  intros Hwf Hone. rewrite one_item_per_product_rows in *.
  by apply (items_steps_invariant (items (world s))); [apply run_items|].
Qed.

Lemma world_empty_cart_items_wf : Tbl.wf (items world_empty_cart).
Proof. intros k [f Hk]. vm_compute in Hk. discriminate Hk. Defined.

Lemma world_empty_cart_one_item : one_item_per_product world_empty_cart.
Proof. intros cid p. vm_compute. lia. Defined.

Lemma item_uniqueness_is_kept_witness :
  let s := run [OpInit anonymous_request None;
                OpAdd product_A price_3_50 2;
                OpAdd product_B price_1_25 4;
                OpAdd product_A price_10_00 1;
                OpUpdate product_B 7 None]
               (mkSys world_empty_cart None) in
  Tbl.wf (items (world s)) ∧ one_item_per_product (world s).
Proof.
  apply (item_uniqueness_is_kept _ (mkSys world_empty_cart None)).
  - exact world_empty_cart_items_wf.
  - exact world_empty_cart_one_item.
Defined.

(** ** Resolution, composed with itself and with checkout *)

Lemma Cart_all_insert (w w' : World) (k : Z) (f : CartFields) :
  rows (carts w) !! k = None →
  rows (carts w') = <[k := f]> (rows (carts w)) →
  Cart_all w' ≡ₚ mkCart k f :: Cart_all w.
Proof.
  intros Hk Hrows. unfold Cart_all. rewrite Hrows.
  by rewrite map_to_list_insert.
Qed.

Lemma anonymous_open_carts (r : Request) (w : World) :
  req_user r = None → (length (open_carts_for r w) ≤ 1)%nat.
Proof.
  intros Hanon. unfold open_carts_for. rewrite Hanon. simpl.
  rewrite Cart_filter_session.
  destruct (session w) as [k|]; simpl; [|lia].
  destruct (rows (carts w) !! k) as [f|]; simpl; [|lia].
  destruct (checked_out f); simpl; lia.
Qed.

Lemma authenticated_open_carts (r : Request) (w : World) :
  req_user r ≠ None → open_carts_for r w = open_carts_of (req_user r) w.
Proof.
  intros Hauth. unfold open_carts_for, open_carts_of.
  by destruct (req_user r).
Qed.

(** After the creation branch the lookup finds the new cart, and with it
    every open cart it matched before. *)
Lemma open_carts_for_new (r : Request) (w : World) :
  Tbl.wf (carts w) →
  let k := last_pk (carts w) + 1 in
  let f := mkCartFields (clock w) (req_user r) false in
  let w' := mkWorld (mkTable (<[k := f]> (rows (carts w))) k) (items w)
                    (Some k) (clock w) in
  (req_user r = None → open_carts_for r w' = [mkCart k f])
  ∧ (req_user r ≠ None →
     open_carts_for r w' ≡ₚ mkCart k f :: open_carts_for r w).
Proof.
  intros Hwf k f w'. pose proof (wf_fresh _ Hwf) as Hfresh. split.
  - intros Hanon. unfold open_carts_for. rewrite Hanon. simpl.
    rewrite Cart_filter_session. simpl. by rewrite lookup_insert_eq.
  - intros Hauth. rewrite !authenticated_open_carts by done.
    unfold open_carts_of.
    rewrite (Cart_all_insert w w' k f) by done.
    by rewrite filter_cons_True.
Qed.

(** X9: resolution is idempotent for an anonymous request, and for an
    authenticated one whose user has at most one open cart: construction
    returns a proxy, and constructing again for the same request returns the
    same cart and changes nothing. *)
Theorem init_twice_same_cart (r : Request) (w : World) :
  Tbl.wf (carts w) →
  (req_user r ≠ None → (length (open_carts_of (req_user r) w) ≤ 1)%nat) →
  ∃ (p : CartProxy.t) (w' : World),
    CartProxy.init (Some r) None w = (Ok p, w')
    ∧ CartProxy.init (Some r) None w' = (Ok p, w').
Proof.
  intros Hwf Hle.
  assert (Hle' : (length (open_carts_for r w) ≤ 1)%nat).
  { destruct (decide (req_user r = None)) as [Hanon|Hauth].
    - by apply anonymous_open_carts.
    - rewrite authenticated_open_carts by done. by apply Hle. }
  rewrite (init_request_cases r w).
  destruct (open_carts_for r w) as [|c [|c' l]] eqn:Hopen; simpl in Hle';
    [| |lia].
  - do 2 eexists. split; [reflexivity|].
    rewrite init_request_cases.
    destruct (open_carts_for_new r w Hwf) as [Hanon Hauth].
    destruct (decide (req_user r = None)) as [Hn|Hn].
    + by rewrite (Hanon Hn).
    + specialize (Hauth Hn). rewrite Hopen in Hauth.
      apply Permutation_singleton_r in Hauth. by rewrite Hauth.
  - do 2 eexists. split; [reflexivity|].
    by rewrite init_request_cases, Hopen.
Qed.

Lemma init_twice_same_cart_witness :
  ∃ (p : CartProxy.t) (w' : World),
    CartProxy.init (Some (mkRequest (Some 7))) None world_two_carts = (Ok p, w')
    ∧ CartProxy.init (Some (mkRequest (Some 7))) None w' = (Ok p, w').
Proof.
  apply (init_twice_same_cart (mkRequest (Some 7)) world_two_carts).
  - exact world_two_carts_carts_wf.
  - intros _. vm_compute. lia.
Defined.






(** ** get_last_cart *)

Lemma get_last_cart_cases (self : CartProxy.t) (usr : option Z) (w : World) :
  CartProxy.get_last_cart self usr w
  = match open_carts_of usr w with
    | [] =>
        let c := set_user (CartProxy.cart self) usr in
        (Ok (c, CartProxy.mk (CartProxy.request self) c),
         with_carts w (Tbl.save (cart_id c) (cart_fields c) (carts w)))
    | [c] => (Ok (c, self), w)
    | _ => (Raise (MultipleObjectsReturned CartModel), w)
    end.
Proof.
  unfold CartProxy.get_last_cart, try_except_else, Cart_objects_get,
    open_carts_of.
  by destruct (filter _ (Cart_all w)) as [|c [|c' l]].
Qed.

(** The open carts of a user once the cart [c] is saved as theirs, when
    they had none. *)
Lemma open_carts_of_saved (usr : option Z) (w w' : World) (c : Cart) :
  open_carts_of usr w = [] →
  rows (carts w') = <[cart_id c := cart_fields c]> (rows (carts w)) →
  user c = usr →
  open_carts_of usr w' = if checked_out c then [] else [c].
Proof.
  intros Hnone Hrows Hu.
  assert (Hother : ∀ y : Cart, y ∈ Cart_all w' →
            user y = usr ∧ checked_out y = false → y = c).
  { intros y Hy HP. apply elem_of_Cart_all in Hy. rewrite Hrows in Hy.
    apply lookup_insert_Some in Hy as [[Hid Hf]|[Hne Hy]].
    - destruct y, c; simpl in *; congruence.
    - exfalso. apply (filter_nil_not_elem_of _ _ y Hnone HP).
      by apply elem_of_Cart_all. }
  assert (Hc : c ∈ Cart_all w').
  { apply elem_of_Cart_all. rewrite Hrows. apply lookup_insert_eq. }
  unfold open_carts_of. destruct (checked_out c) eqn:Hco.
  - apply filter_none. intros y Hy HP.
    rewrite (Hother y Hy HP) in HP. destruct HP. congruence.
  - apply filter_unique; [apply NoDup_Cart_all|done|done|done].
Qed.



Lemma open_carts_of_checked_out (usr : option Z) (w w' : World)
    (c : Cart) (f' : CartFields) :
  open_carts_of usr w = [c] →
  rows (carts w') = <[cart_id c := f']> (rows (carts w)) →
  checked_out f' = true →
  open_carts_of usr w' = [].
Proof.
  intros Hone Hrows Hclosed. apply filter_none. intros y Hy HP.
  apply elem_of_Cart_all in Hy. rewrite Hrows in Hy.
  apply lookup_insert_Some in Hy as [[Hid Hf]|[Hne Hy]].
  - destruct HP as [_ Hopen]. rewrite <- Hf in Hopen. congruence.
  - apply Hne. f_equal. symmetry.
    apply (proj2 (proj2 (filter_singleton_inv _ _ _ Hone)) y);
      [by apply elem_of_Cart_all|done].
Qed.

(** X13: get_last_cart can hand out a checked-out cart.  When the proxy's
    cart is the user's only open cart, checkout followed by get_last_cart
    for that user returns that same cart, checked out, and the user then has
    no open cart. *)
Theorem get_last_cart_after_checkout
    (self : CartProxy.t) (usr : option Z) (w : World) :
  open_carts_of usr w = [CartProxy.cart self] →
  ∃ (c : Cart) (w1 : World) (c' : Cart) (w2 : World),
    CartProxy.checkout self w
    = (Ok (c, CartProxy.mk (CartProxy.request self) c), w1)
    ∧ CartProxy.get_last_cart (CartProxy.mk (CartProxy.request self) c) usr w1
      = (Ok (c', CartProxy.mk (CartProxy.request self) c'), w2)
    ∧ cart_id c' = cart_id (CartProxy.cart self)
    ∧ checked_out c' = true
    ∧ open_carts_of usr w2 = [].
Proof.
  intros Hone.
  set (c := set_checked_out (CartProxy.cart self) true).
  set (w1 := with_carts w (Tbl.save (cart_id c) (cart_fields c) (carts w))).
  assert (Hnone1 : open_carts_of usr w1 = []).
  { by apply (open_carts_of_checked_out usr w w1 (CartProxy.cart self)
                (cart_fields c)). }
  exists c, w1. do 2 eexists. split; [reflexivity|].
  rewrite get_last_cart_cases, Hnone1. simpl.
  split; [reflexivity|]. split_and!; try done.
  erewrite (open_carts_of_saved usr w1 _ (set_user c usr));
    [|done|reflexivity|done].
  done.
Qed.

Lemma get_last_cart_after_checkout_witness :
  ∃ (c : Cart) (w1 : World) (c' : Cart) (w2 : World),
    CartProxy.checkout proxy_cart_2 world_two_carts
    = (Ok (c, CartProxy.mk (CartProxy.request proxy_cart_2) c), w1)
    ∧ CartProxy.get_last_cart
        (CartProxy.mk (CartProxy.request proxy_cart_2) c) (Some 5) w1
      = (Ok (c', CartProxy.mk (CartProxy.request proxy_cart_2) c'), w2)
    ∧ cart_id c' = cart_id (CartProxy.cart proxy_cart_2)
    ∧ checked_out c' = true
    ∧ open_carts_of (Some 5) w2 = [].
Proof.
  apply (get_last_cart_after_checkout proxy_cart_2 (Some 5) world_two_carts).
  vm_compute. reflexivity.
Defined.

(** ** replace *)

(** X14: replace destroys the cart it is asked to reassign when that cart is
    the only cart of the new owner: delete_old_cart deletes it with its
    items, the lookup by id then fails, and replace raises
    CartDoesNotExist. *)
Theorem replace_own_cart
    (self : CartProxy.t) (cid : Z) (new_user : option Z) (w : World)
    (c : Cart) :
  carts_of new_user w = [c] → cart_id c = cid →
  ∃ w', CartProxy.replace self cid new_user w = (Raise CartDoesNotExist, w')
    ∧ rows (carts w') = delete cid (rows (carts w))
    ∧ ∀ k f, rows (items w') !! k = Some f
             ↔ rows (items w) !! k = Some f ∧ item_cart f ≠ cid.
Proof.
  intros Hone <-. unfold CartProxy.replace, try_except, try_except_else.
  unfold bind at 1. rewrite delete_old_cart_cases, Hone.
  unfold Cart_delete, bind, Cart_objects_get.
  rewrite Cart_filter_pk. simpl. rewrite lookup_delete_eq. simpl.
  eexists. split; [reflexivity|]. simpl. split; [done|].
  intros k f. rewrite map_lookup_filter_Some. simpl. tauto.
Qed.

Lemma replace_own_cart_witness :
  ∃ w', CartProxy.replace proxy_cart_2 2 (Some 5) world_two_carts
        = (Raise CartDoesNotExist, w')
    ∧ rows (carts w') = delete 2 (rows (carts world_two_carts))
    ∧ ∀ k f, rows (items w') !! k = Some f
             ↔ rows (items world_two_carts) !! k = Some f ∧ item_cart f ≠ 2.
Proof.
  apply (replace_own_cart proxy_cart_2 2 (Some 5) world_two_carts
           (CartProxy.cart proxy_cart_2)).
  - vm_compute. reflexivity.
  - reflexivity.
Defined.

Lemma replace_no_old_cart (self : CartProxy.t) (cid : Z)
    (new_user : option Z) (w : World) (f : CartFields) :
  carts_of new_user w = [] → rows (carts w) !! cid = Some f →
  CartProxy.replace self cid new_user w
  = (Ok (set_user (mkCart cid f) new_user),
     with_carts w (Tbl.save cid (cart_fields (set_user (mkCart cid f) new_user))
                            (carts w))).
Proof.
  intros Hnone Hc. unfold CartProxy.replace, try_except, try_except_else.
  unfold bind at 1. rewrite delete_old_cart_cases, Hnone.
  unfold bind, Cart_objects_get. rewrite Cart_filter_pk, Hc. reflexivity.
Qed.

(** X15: the login flow.  When the cart to reassign is stored and open and
    the new owner has no cart, or a single other cart, replace returns the
    cart with the new owner, and constructing a proxy for a request of that
    user then resolves to this cart and changes nothing. *)
Theorem replace_then_init
    (self : CartProxy.t) (cid uid : Z) (w : World) (f : CartFields) :
  rows (carts w) !! cid = Some f → checked_out f = false →
  (carts_of (Some uid) w = []
   ∨ ∃ old, carts_of (Some uid) w = [old] ∧ cart_id old ≠ cid) →
  ∃ (c : Cart) (w' : World),
    CartProxy.replace self cid (Some uid) w = (Ok c, w')
    ∧ c = set_user (mkCart cid f) (Some uid)
    ∧ CartProxy.init (Some (mkRequest (Some uid))) None w'
      = (Ok (CartProxy.mk (Some (mkRequest (Some uid))) c), w').
Proof.
  intros Hc Hopen Hold.
  set (c := set_user (mkCart cid f) (Some uid)).
  assert (Hrep : ∃ w', CartProxy.replace self cid (Some uid) w = (Ok c, w')
            ∧ rows (carts w') !! cid = Some (cart_fields c)
            ∧ ∀ k g, k ≠ cid → rows (carts w') !! k = Some g →
                     rows (carts w) !! k = Some g ∧ user g ≠ Some uid).
  { destruct Hold as [Hnone|(old & Hone & Hne)].
    - eexists. split; [by apply replace_no_old_cart|]. simpl.
      split; [apply lookup_insert_eq|].
      intros k g Hk. rewrite lookup_insert_ne by done. intros Hg.
      split; [done|]. intros Hu.
      apply (filter_nil_not_elem_of _ _ (mkCart k g) Hnone); [done|].
      by apply elem_of_Cart_all.
    - destruct (replace_one_old_cart self cid (Some uid) w old f Hone Hne Hc)
        as (w' & Hrun & Hrows & _).
      exists w'. split; [done|]. rewrite Hrows.
      split; [apply lookup_insert_eq|].
      intros k g Hk. rewrite lookup_insert_ne by done.
      intros [Hko Hg]%lookup_delete_Some. split; [done|]. intros Hu.
      apply Hko. symmetry.
      change k with (cart_id (mkCart k g)). f_equal.
      apply (proj2 (proj2 (filter_singleton_inv _ _ _ Hone)) (mkCart k g));
        [by apply elem_of_Cart_all|done]. }
  destruct Hrep as (w' & Hrun & Hrow & Hothers).
  exists c, w'. split; [done|]. split; [done|].
  rewrite (init_request_cases (mkRequest (Some uid)) w').
  rewrite (authenticated_open_carts (mkRequest (Some uid))) by done.
  assert (Hone' : open_carts_of (Some uid) w' = [c]).
  { apply filter_unique;
      [apply NoDup_Cart_all|by apply elem_of_Cart_all|done|].
    intros y Hy [Hu _]. apply elem_of_Cart_all in Hy.
    destruct (decide (cart_id y = cid)) as [Heq|Hne].
    - rewrite Heq, Hrow in Hy. destruct y; simpl in *.
      unfold c, set_user; simpl. congruence.
    - exfalso. by apply (Hothers _ _ Hne Hy). }
  simpl. by rewrite Hone'.
Qed.

Lemma replace_then_init_witness :
  ∃ (c : Cart) (w' : World),
    CartProxy.replace proxy_cart_1 1 (Some 5) world_two_carts = (Ok c, w')
    ∧ c = set_user (mkCart 1 (mkCartFields 100 None false)) (Some 5)
    ∧ CartProxy.init (Some (mkRequest (Some 5))) None w'
      = (Ok (CartProxy.mk (Some (mkRequest (Some 5))) c), w').
Proof.
  apply (replace_then_init proxy_cart_1 1 5 world_two_carts
           (mkCartFields 100 None false)).
  - vm_compute. reflexivity.
  - reflexivity.
  - right. exists (CartProxy.cart proxy_cart_2). split.
    + vm_compute. reflexivity.
    + discriminate.
Defined.

(** ** Errors of add and update *)

(** X16: update raises ItemDoesNotExist when the cart has no item for the
    product; with two or more items for the product in the cart both update
    and add raise Item.MultipleObjectsReturned (add creates no further
    item); in each case the world is unchanged. *)
Theorem add_update_lookup_errors
    (self : CartProxy.t) (p : ProductRef) (q : Z) (w : World) :
  (items_for (cart_id (CartProxy.cart self)) p w = [] →
   ∀ price, CartProxy.update self p q price w = (Raise ItemDoesNotExist, w))
  ∧ ((2 ≤ length (items_for (cart_id (CartProxy.cart self)) p w))%nat →
     (∀ price, CartProxy.update self p q price w
               = (Raise (MultipleObjectsReturned ItemModel), w))
     ∧ (∀ price, CartProxy.add self p price q w
                 = (Raise (MultipleObjectsReturned ItemModel), w))).
Proof.
  split.
  - intros Hnone price. unfold CartProxy.update.
    erewrite try_except_caught; [reflexivity|].
    unfold bind, Item_objects_get. fold (items_for (cart_id (CartProxy.cart self)) p w).
    by rewrite Hnone.
  - intros Hmany.
    destruct (items_for _ p w) as [|i0 [|i1 l]] eqn:Hfor; simpl in Hmany;
      [lia|lia|].
    split; intros price.
    + unfold CartProxy.update, try_except, try_except_else, bind,
        Item_objects_get.
      fold (items_for (cart_id (CartProxy.cart self)) p w). by rewrite Hfor.
    + unfold CartProxy.add, try_except_else, Item_objects_get.
      by rewrite add_lookup, Hfor.
Qed.

Lemma add_update_lookup_errors_witness :
  CartProxy.update proxy_cart_2 product_B 3 None world_two_carts
  = (Raise ItemDoesNotExist, world_two_carts).
Proof.
  refine (proj1 (add_update_lookup_errors proxy_cart_2 product_B 3
                   world_two_carts) _ None).
  vm_compute. reflexivity.
Defined.

(** ** shipping_total and total_inclusive *)

(** The value of a sum of two numbers within the precision. *)
Lemma number_value_add_within (emin : Z) (x y : number) :
  emin ≤ exponent (to_decimal x) → emin ≤ exponent (to_decimal y) →
  magnitude emin (to_decimal x) + magnitude emin (to_decimal y)
  < 10 ^ Dec.prec →
  (number_value (py_add x y) == number_value x + number_value y)%Q.
Proof.
  intros Hx Hy Hlt.
  assert (Hv : ∀ z, (Dec.value (to_decimal z) == number_value z)%Q).
  { intros [n|d]; [apply Dec_value_of_int|reflexivity]. }
  assert (Hdec : (Dec.value (Dec.add (to_decimal x) (to_decimal y))
                  == number_value x + number_value y)%Q).
  { rewrite (Dec_add_within emin _ _ Hx Hy Hlt), Dec_value_add_exact.
    by rewrite !Hv. }
  destruct x as [a|a], y as [b|b]; try exact Hdec.
  cbn [py_add number_value]. by rewrite inject_Z_plus.
Qed.

(** X17: when the items of the cart and the amount the shipping function
    returns are together within the precision, the value of
    total_inclusive is the sum of unit price times quantity over the items
    of the cart plus the value the shipping function returns for these
    items. *)
Theorem total_inclusive_value {W : Type}
    (ship_f : list Item → W → number) (weight_cost : W)
    (self : CartProxy.t) (w : World) (emin : Z) :
  Dec.etiny ≤ emin ≤ 0 →
  Forall (λ i : Item, emin ≤ exponent (unit_price i))
         (item_set (CartProxy.cart self) w) →
  emin ≤ exponent
           (to_decimal (ship_f (item_set (CartProxy.cart self) w) weight_cost)) →
  foldr Z.add 0 (item_magnitude emin <$> item_set (CartProxy.cart self) w)
  + magnitude emin
      (to_decimal (ship_f (item_set (CartProxy.cart self) w) weight_cost))
  < 10 ^ Dec.prec →
  (number_value (CartProxy.total_inclusive ship_f weight_cost self w)
   == exact_total (cart_id (CartProxy.cart self)) w
      + number_value (ship_f (item_set (CartProxy.cart self) w) weight_cost))%Q.
Proof.
  intros Hemin Hall He Hlt.
  set (its := item_set (CartProxy.cart self) w) in *.
  set (s := ship_f its weight_cost) in *.
  pose proof (magnitude_nonneg emin (to_decimal s)) as Hs0.
  assert (Hfit : within_precision emin its) by (split_and!; [lia|lia|done|lia]).
  rewrite <- (total_is_exact_total emin self w Hfit).
  unfold CartProxy.total_inclusive, CartProxy.shipping_total.
  fold its. fold s.
  assert (Htot : emin ≤ exponent (to_decimal (CartProxy.total self w))
                 ∧ magnitude emin (to_decimal (CartProxy.total self w))
                   ≤ foldr Z.add 0 (item_magnitude emin <$> its)).
  { unfold CartProxy.total. fold its.
    destruct (decide (its = [])) as [->|Hne].
    - split; [simpl; lia|]. vm_compute. discriminate.
    - destruct (proj2 (py_sum_total_prices emin its Hfit) Hne)
        as (r & -> & Her & Hmr). done. }
  destruct Htot as [Het Hmt].
  apply (number_value_add_within emin); [done|done|lia].
Qed.

(** Cart 1 of [world_two_carts] with a shipping function that charges
    5.00 whatever the items. *)
Lemma total_inclusive_value_witness :
  (number_value
     (CartProxy.total_inclusive
        (λ (_ : list Item) (_ : unit), Dec (mkDecimal 500 (-2))) tt
        proxy_cart_1 world_two_carts)
   == exact_total (cart_id (CartProxy.cart proxy_cart_1)) world_two_carts
      + number_value (Dec (mkDecimal 500 (-2))))%Q.
Proof.
  assert (Hset : item_set (CartProxy.cart proxy_cart_1) world_two_carts
                 = [mkItem 2 (mkItemFields 1 product_B price_1_25 4);
                    mkItem 1 (mkItemFields 1 product_A price_3_50 2)])
    by (vm_compute; reflexivity).
  apply (total_inclusive_value
           (λ (_ : list Item) (_ : unit), Dec (mkDecimal 500 (-2))) tt
           proxy_cart_1 world_two_carts (-2)).
  - unfold Dec.etiny. lia.
  - rewrite Hset. repeat constructor; simpl; lia.
  - simpl. lia.
  - rewrite Hset. vm_compute. reflexivity.
Defined.

(** ** new *)

(** X18: on a well-formed cart table, new stores one open cart owned by the
    given user under a key that had no row and leaves every other cart row
    and the items as they are.  With a request it points the session at the
    new cart and returns it; with the request None the cart is stored all
    the same, the session is untouched and AttributeError is raised. *)
Theorem new_stores_fresh_cart
    (request : option Request) (usr : option Z) (w : World) :
  Tbl.wf (carts w) →
  ∃ (k : Z) (w' : World),
    (CartProxy.new request usr w).2 = w'
    ∧ rows (carts w) !! k = None
    ∧ rows (carts w') !! k = Some (mkCartFields (clock w) usr false)
    ∧ (∀ k', k' ≠ k → rows (carts w') !! k' = rows (carts w) !! k')
    ∧ items w' = items w
    ∧ Tbl.wf (carts w')
    ∧ match request with
      | Some _ =>
          (CartProxy.new request usr w).1
          = Ok (mkCart k (mkCartFields (clock w) usr false))
          ∧ session w' = Some k
      | None =>
          (CartProxy.new request usr w).1 = Raise AttributeError
          ∧ session w' = session w
      end.
Proof.
  intros Hwf. pose proof (wf_fresh _ Hwf) as Hfresh.
  exists (last_pk (carts w) + 1). eexists. split; [reflexivity|].
  destruct request as [r|]; simpl.
  - rewrite lookup_insert_eq. split_and!; try done.
    + intros k' Hne. by rewrite lookup_insert_ne.
    + apply (wf_insert _ (mkCartFields (clock w) usr false) Hwf).
  - rewrite lookup_insert_eq. split_and!; try done.
    + intros k' Hne. by rewrite lookup_insert_ne.
    + apply (wf_insert _ (mkCartFields (clock w) usr false) Hwf).
Qed.

Lemma new_stores_fresh_cart_witness :
  ∃ (k : Z) (w' : World),
    (CartProxy.new None (Some 5) world_two_carts).2 = w'
    ∧ rows (carts world_two_carts) !! k = None
    ∧ rows (carts w') !! k = Some (mkCartFields (clock world_two_carts) (Some 5) false)
    ∧ (∀ k', k' ≠ k → rows (carts w') !! k' = rows (carts world_two_carts) !! k')
    ∧ items w' = items world_two_carts
    ∧ Tbl.wf (carts w')
    ∧ (CartProxy.new None (Some 5) world_two_carts).1 = Raise AttributeError
    ∧ session w' = session world_two_carts.
Proof.
  destruct (new_stores_fresh_cart None (Some 5) world_two_carts
              world_two_carts_carts_wf)
    as (k & w' & H1 & H2 & H3 & H4 & H5 & H6 & H7 & H8).
  exists k, w'. by split_and!.
Defined.

(** ** Which table an operation writes *)

Lemma add_session self p price q w :
  session (CartProxy.add self p price q w).2 = session w.
Proof.
  unfold CartProxy.add, try_except_else, Item_objects_get, except.
  destruct (get_one _ _) as [it|e]; simpl; [done|].
  by case_decide.
Qed.

Lemma update_item_session self pk q w :
  session (CartProxy.update_item self pk q w).2 = session w.
Proof.
  unfold CartProxy.update_item, try_except, try_except_else, bind,
    Item_objects_get, except.
  destruct (get_one _ _) as [it|e]; simpl; [done|].
  by case_decide.
Qed.

Lemma update_session self p q price w :
  session (CartProxy.update self p q price w).2 = session w.
Proof.
  unfold CartProxy.update, try_except, try_except_else, bind,
    Item_objects_get, except.
  destruct (get_one _ _) as [it|e]; simpl; [done|].
  by case_decide.
Qed.

Lemma clear_session self w :
  session (CartProxy.clear self w).2 = session w.
Proof.
  unfold CartProxy.clear.
  by destruct (for_each_Item_delete_result (item_set (CartProxy.cart self) w) w)
    as (t & -> & _).
Qed.

Lemma clear_carts self w :
  carts (CartProxy.clear self w).2 = carts w.
Proof. unfold CartProxy.clear. apply for_each_Item_delete_carts. Qed.

(** X19: add, remove_item, update_item, update and clear never write to the
    cart table or the session and leave the proxy as it is, whether they
    raise or not; construction, new, get_last_cart and checkout never write
    to the item table. *)
Theorem operations_write_one_table (op : Op) (s : Sys) :
  (item_op op = true →
   carts (world (step op s)) = carts (world s)
   ∧ session (world (step op s)) = session (world s)
   ∧ proxy (step op s) = proxy s)
  ∧ (cart_op op = true →
     items (world (step op s)) = items (world s)).
Proof.
  split.
  - destruct op; try discriminate; intros _; unfold step;
      destruct (proxy s) as [self|] eqn:Hp; try done;
      unfold call; cbn [world proxy].
    + by rewrite add_carts, add_session.
    + by rewrite update_item_carts, update_item_session.
    + by rewrite update_carts, update_session.
    + by rewrite clear_carts, clear_session.
  - destruct op; try discriminate; intros _; unfold step.
    + rewrite world_call_self. unfold bind.
      pose proof (init_items request supplied (world s)) as Hi.
      by destruct (CartProxy.init request supplied (world s)) as [[p|e] w'].
    + destruct (proxy s); [|done]. apply new_items.
    + destruct (proxy s); [|done]. rewrite world_call_self.
      apply get_last_cart_items.
    + destruct (proxy s); [|done]. by rewrite world_call_self.
Qed.

Lemma operations_write_one_table_witness :
  carts (world (step (OpAdd product_A price_10_00 3)
                     (mkSys world_two_carts (Some proxy_cart_1))))
  = carts world_two_carts.
Proof.
  apply (proj1 (operations_write_one_table (OpAdd product_A price_10_00 3)
                  (mkSys world_two_carts (Some proxy_cart_1)))).
  reflexivity.
Defined.

(** ** remove_item, composed with count, unique_count and total *)




